(** * SecurePass: credential records, the password store and the generator

    A shallow embedding of
      - models/Password.ts            (class [PasswordEntry]),
      - services/PasswordGenerator.ts ([BasePasswordGenerator],
                                       [SecurePasswordGenerator]),
      - services/StorageService.ts    ([IStorageService], [LocalStorageService]),
      - services/PasswordManager.ts   ([PasswordManager]),
      - services/PasswordAPIService.ts ([PasswordAPIService]),
    followed by the properties of the design document that concern them.

    Conventions of the embedding.
      - A JavaScript string is the list of its UTF-16 code units ([jsstring]).
      - [Date.now()] and [new Date()] read the system clock; every read
        consumes one reading of the clock stream of the runtime state.  An
        ISO-8601 timestamp [new Date().toISOString()] is represented by the
        millisecond reading it renders (the rendering is injective and keeps
        the order on the four-digit-year range).
      - Methods are computations of the monad [Eff]: they thread the runtime
        state and either return or throw; the state reached when an
        exception is thrown keeps every mutation done before the throw.
      - The number [password.length * 0.7] is an IEEE-754 double; the product
        is computed with round-to-nearest-even on 53 bits ([b64_mul]).
      - A field of a partial update is [Some v] when [data.field !== undefined]
        and [None] otherwise.
      - [String.prototype.toLowerCase] is the case mapping of the engine: the
        search functions take it as a parameter; on ASCII strings it is
        [asciiToLowerCase]. *)

From Stdlib Require Import ZArith List Bool String Ascii Lia.
From Stdlib Require Import DecimalString DecimalZ.
From stdpp Require Import gmap.
Import ListNotations.
Open Scope Z_scope.

(* ===================================================================== *)
(** ** JavaScript strings *)
(* ===================================================================== *)

Module JS.

(** A string value: its UTF-16 code units. *)
Definition jsstring := list Z.

(** String literals of the source, all of them ASCII. *)
Definition js (s : string) : jsstring :=
  map (fun a => Z.of_N (N_of_ascii a)) (list_ascii_of_string s).

(** [s.length] *)
Definition strlen (s : jsstring) : Z := Z.of_nat (length s).

(** Truthiness of a string: only the empty string is falsy. *)
Definition truthy (s : jsstring) : bool :=
  match s with [] => false | _ :: _ => true end.

Definition jsstring_eqb (s t : jsstring) : bool :=
  bool_decide (s = t).

(** WhiteSpace and LineTerminator code points of ECMAScript, the ones
    [String.prototype.trim] strips. *)
Definition isWhiteSpace (c : Z) : bool :=
  (c =? 9) || (c =? 10) || (c =? 11) || (c =? 12) || (c =? 13) || (c =? 32)
  || (c =? 160) || (c =? 5760) || ((8192 <=? c) && (c <=? 8202))
  || (c =? 8232) || (c =? 8233) || (c =? 8239) || (c =? 8287)
  || (c =? 12288) || (c =? 65279).

Fixpoint trimStart (s : jsstring) : jsstring :=
  match s with
  | [] => []
  | c :: s' => if isWhiteSpace c then trimStart s' else s
  end.

Definition trimEnd (s : jsstring) : jsstring := rev (trimStart (rev s)).

(** [s.trim()] *)
Definition trim (s : jsstring) : jsstring := trimEnd (trimStart s).

(** [s.startsWith(t)] *)
Fixpoint startsWith (s t : jsstring) : bool :=
  match t, s with
  | [], _ => true
  | _ :: _, [] => false
  | d :: t', c :: s' => (c =? d) && startsWith s' t'
  end.

(** [s.includes(t)]: [t] occurs in [s] as a run of consecutive code units. *)
Fixpoint includes (s t : jsstring) : bool :=
  startsWith s t ||
  match s with
  | [] => false
  | _ :: s' => includes s' t
  end.

(** The string iterator: code points, a high surrogate followed by a low
    surrogate being one code point. *)
Definition isHighSurrogate (c : Z) : bool := (55296 <=? c) && (c <=? 56319).
Definition isLowSurrogate (c : Z) : bool := (56320 <=? c) && (c <=? 57343).

Fixpoint codePoints (s : jsstring) : list Z :=
  match s with
  | [] => []
  | hi :: rest =>
      match rest with
      | lo :: rest' =>
          if isHighSurrogate hi && isLowSurrogate lo
          then (65536 + (hi - 55296) * 1024 + (lo - 56320)) :: codePoints rest'
          else hi :: codePoints rest
      | [] => [hi]
      end
  end.

(** [new Set(s).size]: the number of distinct code points of [s]. *)
Definition Set_size (s : jsstring) : Z :=
  Z.of_nat (size (list_to_set (codePoints s) : gset Z)).

(** [/[a-z]/.test(s)] and the like: some code unit lies in the class. *)
Definition isLower (c : Z) : bool := (97 <=? c) && (c <=? 122).
Definition isUpper (c : Z) : bool := (65 <=? c) && (c <=? 90).
Definition isDigit (c : Z) : bool := (48 <=? c) && (c <=? 57).
Definition isOther (c : Z) : bool :=
  negb (isLower c || isUpper c || isDigit c).

Definition test (class : Z -> bool) (s : jsstring) : bool := existsb class s.

(** [n.toString()] for an integral number. *)
Definition Number_toString (n : Z) : jsstring :=
  js (NilEmpty.string_of_int (Z.to_int n)).

(** The ASCII part of [String.prototype.toLowerCase]; on strings of ASCII
    code units it is the whole of it. *)
Definition asciiToLowerCase (s : jsstring) : jsstring :=
  map (fun c => if isUpper c then c + 32 else c) s.

End JS.
Import JS.

(* ===================================================================== *)
(** ** IEEE-754 doubles, as far as the strength score needs them *)
(* ===================================================================== *)

Module Binary64.

(** A finite positive double [mant * 2^expo], with [0 <= mant <= 2^53]. *)
Record binary64 := B64 { mant : Z; expo : Z }.

(** An integer below [2^53] is a double. *)
Definition of_Z (n : Z) : binary64 := B64 n 0.

(** The literal [0.7]: the double nearest to 7/10,
    6305039478318694 * 2^-53 = 0.6999999999999999555910790149937... *)
Definition lit_0_7 : binary64 := B64 6305039478318694 (-53).

(** Round [m * 2^e] ([0 <= m]) to 53 significant bits, to nearest, ties to
    even. *)
Definition round53 (m e : Z) : binary64 :=
  let b := Z.log2 m in
  if b <? 53 then B64 m e
  else
    let s := b - 52 in
    let q := Z.shiftr m s in
    let r := m - Z.shiftl q s in
    let half := Z.shiftl 1 (s - 1) in
    let q' := if (half <? r) || ((r =? half) && Z.odd q) then q + 1 else q in
    B64 q' (e + s).

(** [x * y] *)
Definition b64_mul (x y : binary64) : binary64 :=
  round53 (mant x * mant y) (expo x + expo y).

(** [n > x] for an integer [n] and a double [x]. *)
Definition Z_gtb (n : Z) (x : binary64) : bool :=
  if 0 <=? expo x then mant x * 2 ^ expo x <? n
  else mant x <? n * 2 ^ (- expo x).

(** The integral part of a double. *)
Definition floor (x : binary64) : Z :=
  if 0 <=? expo x then mant x * 2 ^ expo x
  else mant x / 2 ^ (- expo x).

End Binary64.
Import Binary64.

(* ===================================================================== *)
(** ** Runtime state and the effect monad *)
(* ===================================================================== *)

(** models/Password.ts, [interface IPasswordEntry].  [notes] is optional:
    [None] is [undefined]. *)
Module Entry.
Record IPasswordEntry := mkEntry {
  id : jsstring;
  website : jsstring;
  username : jsstring;
  password : jsstring;
  notes : option jsstring;
  createdAt : Z;
  updatedAt : Z
}.
End Entry.
Import Entry.

(** [class PasswordEntry implements IPasswordEntry]: the same seven fields. *)
Definition PasswordEntry := IPasswordEntry.

Inductive JSError :=
| RangeError          (* new Uint32Array(n), n < 0 *)
| QuotaExceededError  (* localStorage.setItem, crypto.getRandomValues *)
| SyntaxError         (* JSON.parse *)
| NetworkError        (* fetch rejected *)
| APIRequestFailed (status : Z)  (* Error(`API request failed: ${status}`) *)
| BackendError.       (* whatever a storage backend throws *)

Inductive outcome (A : Type) :=
| Return (a : A)
| Throw (e : JSError).
Arguments Return {A} a.
Arguments Throw {A} e.

(** What is stored under the key of [LocalStorageService]: a JSON text,
    given by the array it parses to, or a text [JSON.parse] rejects. *)
Inductive StoredText :=
| EmptyText
| JSONArray (rows : list IPasswordEntry)
| Malformed.

(** [window.localStorage] as the storage service sees it.  [writable] is
    false when [setItem] throws (quota exceeded, private mode). *)
Record LocalStorage := mkLocalStorage {
  secure_pass_passwords : option StoredText;
  writable : bool
}.

(** The answer of the server to [GET /api/passwords]. *)
Inductive Response :=
| Rejected                                      (* fetch fails *)
| Responded (status : Z) (body : list IPasswordEntry).

Record State := mkState {
  clock : nat -> Z;          (* the successive readings of the system clock *)
  ticks : nat;               (* how many readings were taken *)
  entropy : nat -> Z;        (* the words the CSPRNG delivers *)
  drawn : nat;               (* how many words were drawn *)
  localStorage : LocalStorage;
  console : list jsstring;   (* operations reported by console.error *)
  server : Response;
  passwords : list PasswordEntry  (* PasswordManager.instance.passwords *)
}.

Definition Eff (A : Type) : Type := State -> outcome A * State.

Definition ret {A} (a : A) : Eff A := fun st => (Return a, st).

Definition throw {A} (e : JSError) : Eff A := fun st => (Throw e, st).

Definition bind {A B} (c : Eff A) (k : A -> Eff B) : Eff B :=
  fun st =>
    match c st with
    | (Return a, st') => k a st'
    | (Throw e, st') => (Throw e, st')
    end.

(** [try { c } catch (error) { h error }] *)
Definition try_catch {A} (c : Eff A) (h : JSError -> Eff A) : Eff A :=
  fun st =>
    match c st with
    | (Return a, st') => (Return a, st')
    | (Throw e, st') => h e st'
    end.

Declare Scope eff_scope.
Delimit Scope eff_scope with eff.
Notation "x <- c ;; k" := (bind c (fun x => k))
  (at level 100, c at next level, right associativity) : eff_scope.
Notation "c ;;; k" := (bind c (fun _ => k))
  (at level 100, right associativity) : eff_scope.
Open Scope eff_scope.

Fixpoint mapM {A B} (f : A -> Eff B) (l : list A) : Eff (list B) :=
  match l with
  | [] => ret []
  | a :: l' => b <- f a ;; bs <- mapM f l' ;; ret (b :: bs)
  end.

(** [Date.now()], and the reading behind [new Date()]. *)
Definition Date_now : Eff Z :=
  fun st =>
    (Return (clock st (ticks st)),
     mkState (clock st) (S (ticks st)) (entropy st) (drawn st)
             (localStorage st) (console st) (server st) (passwords st)).

(** [new Date().toISOString()] *)
Definition new_Date_toISOString : Eff Z := Date_now.

Definition get_passwords : Eff (list PasswordEntry) :=
  fun st => (Return (passwords st), st).

Definition set_passwords (l : list PasswordEntry) : Eff unit :=
  fun st =>
    (Return tt,
     mkState (clock st) (ticks st) (entropy st) (drawn st)
             (localStorage st) (console st) (server st) l).

(** [console.error(`Error during ${operation}:`, error)] *)
Definition console_error (operation : jsstring) : Eff unit :=
  fun st =>
    (Return tt,
     mkState (clock st) (ticks st) (entropy st) (drawn st)
             (localStorage st) (console st ++ [operation]) (server st)
             (passwords st)).

(* ===================================================================== *)
(** ** models/Password.ts *)
(* ===================================================================== *)

(** [Omit<PasswordEntry, 'id' | 'createdAt' | 'updatedAt'>], what
    [addPassword] receives. *)
Module NewData.
Record t := make {
  website : jsstring;
  username : jsstring;
  password : jsstring;
  notes : option jsstring
}.
End NewData.

(** [Partial<Pick<IPasswordEntry, 'website' | 'username' | 'password' |
    'notes'>>]: a field is [Some v] when [data.field !== undefined]. *)
Module Partial.
Record t := make {
  website : option jsstring;
  username : option jsstring;
  password : option jsstring;
  notes : option jsstring
}.
Definition empty : t := make None None None None.
End Partial.

(** [interface IPasswordGeneratorOptions] *)
Module Options.
Record t := make {
  length : Z;
  includeUppercase : bool;
  includeLowercase : bool;
  includeNumbers : bool;
  includeSymbols : bool
}.
End Options.

Module Password.

(** [constructor(website, username, password, notes?, id?)] *)
Definition constructor (website username password : jsstring)
    (notes : option jsstring) (id : option jsstring) : Eff PasswordEntry :=
  this_id <-
    match id with
    | Some i =>
        if truthy i then ret i
        else (n <- Date_now ;; ret (Number_toString n))
    | None => n <- Date_now ;; ret (Number_toString n)
    end ;;
  this_createdAt <- new_Date_toISOString ;;
  this_updatedAt <- new_Date_toISOString ;;
  ret (mkEntry this_id website username password notes
               this_createdAt this_updatedAt).

(** [update(data)] *)
Definition update (this : PasswordEntry) (data : Partial.t)
    : Eff PasswordEntry :=
  let this_website :=
    match Partial.website data with Some v => v | None => website this end in
  let this_username :=
    match Partial.username data with Some v => v | None => username this end in
  let this_password :=
    match Partial.password data with Some v => v | None => password this end in
  let this_notes :=
    match Partial.notes data with Some v => Some v | None => notes this end in
  this_updatedAt <- new_Date_toISOString ;;
  ret (mkEntry (id this) this_website this_username this_password this_notes
               (createdAt this) this_updatedAt).

(** [toJSON()] *)
Definition toJSON (this : PasswordEntry) : IPasswordEntry :=
  mkEntry (id this) (website this) (username this) (password this)
          (notes this) (createdAt this) (updatedAt this).

(** [static fromJSON(data)] *)
Definition fromJSON (data : IPasswordEntry) : Eff PasswordEntry :=
  entry <- constructor (website data) (username data) (password data)
                       (notes data) (Some (id data)) ;;
  ret (mkEntry (id entry) (website entry) (username entry) (password entry)
               (notes entry) (createdAt entry) (updatedAt data)).

End Password.

(* ===================================================================== *)
(** ** services/PasswordGenerator.ts *)
(* ===================================================================== *)

Module PasswordGenerator.

Inductive StrengthLevel := Weak | Fair | Good | Strong.

(** [BasePasswordGenerator.calculateStrength] *)
Definition calculateStrength (password : jsstring) : Z :=
  if negb (truthy password) then 0
  else
    let score := 0 in
    let score := if 8 <=? strlen password then score + 20 else score in
    let score := if 12 <=? strlen password then score + 10 else score in
    let score := if 16 <=? strlen password then score + 10 else score in
    let score := if test isLower password then score + 15 else score in
    let score := if test isUpper password then score + 15 else score in
    let score := if test isDigit password then score + 15 else score in
    let score := if test isOther password then score + 15 else score in
    let uniqueChars := Set_size password in
    let score :=
      if Z_gtb uniqueChars (b64_mul (of_Z (strlen password)) lit_0_7)
      then score + 10 else score in
    Z.min 100 score.

(** [BasePasswordGenerator.getStrengthLevel] *)
Definition getStrengthLevel (strength : Z) : StrengthLevel :=
  if strength <? 30 then Weak
  else if strength <? 60 then Fair
  else if strength <? 80 then Good
  else Strong.

(** [BasePasswordGenerator.getStrengthColor] *)
Definition getStrengthColor (strength : Z) : jsstring :=
  if strength <? 30 then js "bg-red-500"
  else if strength <? 60 then js "bg-yellow-500"
  else if strength <? 80 then js "bg-blue-500"
  else js "bg-green-500".

(** [SecurePasswordGenerator.getCharacterSet] *)
Definition getCharacterSet (options : Options.t) : jsstring :=
  let charset := [] in
  let charset :=
    if Options.includeLowercase options
    then charset ++ js "abcdefghijklmnopqrstuvwxyz" else charset in
  let charset :=
    if Options.includeUppercase options
    then charset ++ js "ABCDEFGHIJKLMNOPQRSTUVWXYZ" else charset in
  let charset :=
    if Options.includeNumbers options
    then charset ++ js "0123456789" else charset in
  let charset :=
    if Options.includeSymbols options
    then charset ++ js "!@#$%^&*()_+-=[]{}|;:,.<>?" else charset in
  if truthy charset then charset else js "abcdefghijklmnopqrstuvwxyz".

(** [new Uint32Array(n)] for an integral [n]. *)
Definition new_Uint32Array (n : Z) : Eff (list Z) :=
  if n <? 0 then throw RangeError else ret (repeat 0 (Z.to_nat n)).

(** [crypto.getRandomValues(array)]: every element becomes a fresh 32-bit
    word; more than 65536 bytes are refused. *)
Definition crypto_getRandomValues (array : list Z) : Eff (list Z) :=
  fun st =>
    let n := List.length array in
    if 65536 <? 4 * Z.of_nat n then (Throw QuotaExceededError, st)
    else
      (Return (map (fun i => entropy st (drawn st + i)%nat mod 2 ^ 32)
                   (seq 0 n)),
       mkState (clock st) (ticks st) (entropy st) (drawn st + n)%nat
               (localStorage st) (console st) (server st) (passwords st)).

(** [charset[i]], converted to a string by [+=]. *)
Definition charAt (charset : jsstring) (i : Z) : jsstring :=
  match nth_error charset (Z.to_nat i) with
  | Some c => [c]
  | None => js "undefined"
  end.

(** The [for] loop of [generatePassword]; [array] holds what is left of
    the random words, [array.length] being [options.length]. *)
Fixpoint generate_loop (charset : jsstring) (array : list Z)
    (password : jsstring) : jsstring :=
  match array with
  | [] => password
  | array_i :: rest =>
      let randomIndex := Z.rem array_i (strlen charset) in
      generate_loop charset rest (password ++ charAt charset randomIndex)
  end.

(** [SecurePasswordGenerator.generatePassword] *)
Definition generatePassword (options : Options.t) : Eff jsstring :=
  let charset := getCharacterSet options in
  let password := [] in
  array <- new_Uint32Array (Options.length options) ;;
  array <- crypto_getRandomValues array ;;
  ret (generate_loop charset array password).

End PasswordGenerator.

(* ===================================================================== *)
(** ** services/StorageService.ts *)
(* ===================================================================== *)

Module StorageService.

(** [interface IStorageService] *)
Record IStorageService := {
  getPasswords : Eff (list PasswordEntry);
  savePasswords : list PasswordEntry -> Eff unit;
  clearPasswords : Eff unit
}.

(** [BaseStorageService.handleError] *)
Definition handleError (operation : jsstring) (error : JSError) : Eff unit :=
  console_error operation.

Definition set_item (v : option StoredText) : Eff unit :=
  fun st =>
    (Return tt,
     mkState (clock st) (ticks st) (entropy st) (drawn st)
             (mkLocalStorage v (writable (localStorage st)))
             (console st) (server st) (passwords st)).

(** [localStorage.getItem(this.storageKey)] *)
Definition localStorage_getItem : Eff (option StoredText) :=
  fun st => (Return (secure_pass_passwords (localStorage st)), st).

(** [localStorage.setItem(this.storageKey, text)] *)
Definition localStorage_setItem (text : StoredText) : Eff unit :=
  fun st =>
    if writable (localStorage st) then set_item (Some text) st
    else (Throw QuotaExceededError, st).

(** [localStorage.removeItem(this.storageKey)] *)
Definition localStorage_removeItem : Eff unit := set_item None.

Definition JSON_parse (text : StoredText) : Eff (list IPasswordEntry) :=
  match text with
  | JSONArray rows => ret rows
  | EmptyText | Malformed => throw SyntaxError
  end.

Definition JSON_stringify (rows : list IPasswordEntry) : StoredText :=
  JSONArray rows.

Module LocalStorageService.

Definition getPasswords : Eff (list PasswordEntry) :=
  try_catch
    (data <- localStorage_getItem ;;
     match data with
     | None | Some EmptyText => ret []
     | Some text =>
         passwordData <- JSON_parse text ;;
         mapM Password.fromJSON passwordData
     end)
    (fun error => handleError (js "loading passwords") error ;;; ret []).

Definition savePasswords (passwords : list PasswordEntry) : Eff unit :=
  try_catch
    (let serializedData := map Password.toJSON passwords in
     localStorage_setItem (JSON_stringify serializedData))
    (fun error => handleError (js "saving passwords") error).

Definition clearPasswords : Eff unit :=
  try_catch localStorage_removeItem
    (fun error => handleError (js "clearing passwords") error).

Definition getInstance : IStorageService :=
  Build_IStorageService getPasswords savePasswords clearPasswords.

End LocalStorageService.

End StorageService.
Import StorageService.

(* ===================================================================== *)
(** ** services/PasswordManager.ts *)
(* ===================================================================== *)

Module PasswordManager.

(** [password.update(data)] on the object [find] returned: the first
    element of the array with that id is the object mutated. *)
Fixpoint assign_first (f : PasswordEntry -> bool) (updated : PasswordEntry)
    (l : list PasswordEntry) : list PasswordEntry :=
  match l with
  | [] => []
  | p :: l' => if f p then updated :: l' else p :: assign_first f updated l'
  end.

Section Methods.

(** [this.storageService], injected by [getInstance]. *)
Variable storageService : IStorageService.

(** [String.prototype.toLowerCase], the case mapping of the engine. *)
Variable toLowerCase : jsstring -> jsstring.

Definition loadPasswords : Eff unit :=
  l <- getPasswords storageService ;; set_passwords l.

Definition savePasswords : Eff unit :=
  l <- get_passwords ;; StorageService.savePasswords storageService l.

Definition constructor : Eff unit := loadPasswords.

Definition getAllPasswords : Eff (list PasswordEntry) := get_passwords.

Definition addPassword (passwordData : NewData.t) : Eff PasswordEntry :=
  newPassword <-
    Password.constructor (NewData.website passwordData)
      (NewData.username passwordData) (NewData.password passwordData)
      (NewData.notes passwordData) None ;;
  l <- get_passwords ;;
  set_passwords (l ++ [newPassword]) ;;;
  savePasswords ;;;
  ret newPassword.

Definition updatePassword (id : jsstring) (passwordData : Partial.t)
    : Eff (option PasswordEntry) :=
  l <- get_passwords ;;
  match find (fun p => jsstring_eqb (Entry.id p) id) l with
  | None => ret None
  | Some password =>
      password' <- Password.update password passwordData ;;
      set_passwords
        (assign_first (fun p => jsstring_eqb (Entry.id p) id)
                      password' l) ;;;
      savePasswords ;;;
      ret (Some password')
  end.

Definition deletePassword (id : jsstring) : Eff bool :=
  l <- get_passwords ;;
  let initialLength := Z.of_nat (List.length l) in
  set_passwords
    (List.filter (fun p => negb (jsstring_eqb (Entry.id p) id)) l) ;;;
  l' <- get_passwords ;;
  if Z.of_nat (List.length l') <? initialLength then savePasswords ;;; ret true
  else ret false.

Definition searchPasswords (searchTerm : jsstring)
    : Eff (list PasswordEntry) :=
  if negb (truthy (trim searchTerm)) then getAllPasswords
  else
    let term := toLowerCase searchTerm in
    l <- get_passwords ;;
    ret (List.filter
           (fun password =>
              includes (toLowerCase (website password)) term
              || includes (toLowerCase (username password)) term)
           l).

Definition getPasswordById (id : jsstring) : Eff (option PasswordEntry) :=
  l <- get_passwords ;;
  ret (find (fun p => jsstring_eqb (Entry.id p) id) l).

Definition clearAllPasswords : Eff unit :=
  set_passwords [] ;;; clearPasswords storageService.

End Methods.

End PasswordManager.

(* ===================================================================== *)
(** ** services/PasswordAPIService.ts *)
(* ===================================================================== *)

Module PasswordAPIService.

(** [makeRequest('')]: the GET of the whole list. *)
Definition makeRequest : Eff (list IPasswordEntry) :=
  fun st =>
    match server st with
    | Rejected => (Throw NetworkError, st)
    | Responded status body =>
        if (200 <=? status) && (status <=? 299) then (Return body, st)
        else (Throw (APIRequestFailed status), st)
    end.

Definition getAllPasswords : Eff (list PasswordEntry) :=
  data <- makeRequest ;; mapM Password.fromJSON data.

Definition searchPasswords (toLowerCase : jsstring -> jsstring)
    (searchTerm : jsstring) : Eff (list PasswordEntry) :=
  allPasswords <- getAllPasswords ;;
  if negb (truthy (trim searchTerm)) then ret allPasswords
  else
    let lowerSearchTerm := toLowerCase searchTerm in
    ret (List.filter
           (fun password =>
              includes (toLowerCase (website password)) lowerSearchTerm
              || includes (toLowerCase (username password)) lowerSearchTerm
              || match notes password with
                 | Some n => includes (toLowerCase n) lowerSearchTerm
                 | None => false
                 end)
           allPasswords).

End PasswordAPIService.

(* ===================================================================== *)
(** ** hooks/usePasswordManager.ts *)
(* ===================================================================== *)

Module PasswordManagerHook.

(** A method of [class PasswordManagerHook]: beside the runtime it threads
    the React state [passwords] of the component, which [setPasswords]
    replaces. *)
Definition Hook (A : Type) : Type :=
  list PasswordEntry -> Eff (A * list PasswordEntry).

Section Methods.

(** The storage service behind [this.passwordManager]. *)
Variable storageService : IStorageService.

Definition loadPasswords : Hook unit :=
  fun _ =>
    passwords <- PasswordManager.getAllPasswords ;;
    ret (tt, passwords).

Definition addPassword (passwordData : NewData.t) : Hook PasswordEntry :=
  fun react =>
    newPassword <- PasswordManager.addPassword storageService passwordData ;;
    synced <- loadPasswords react ;;
    ret (newPassword, snd synced).

Definition updatePassword (id : jsstring) (passwordData : Partial.t)
    : Hook (option PasswordEntry) :=
  fun react =>
    updatedPassword <-
      PasswordManager.updatePassword storageService id passwordData ;;
    match updatedPassword with
    | Some _ =>
        synced <- loadPasswords react ;; ret (updatedPassword, snd synced)
    | None => ret (updatedPassword, react)
    end.

Definition deletePassword (id : jsstring) : Hook bool :=
  fun react =>
    success <- PasswordManager.deletePassword storageService id ;;
    if success
    then synced <- loadPasswords react ;; ret (success, snd synced)
    else ret (success, react).

End Methods.

End PasswordManagerHook.

(* ===================================================================== *)
(** ** The design document's vocabulary *)
(* ===================================================================== *)

Module Spec.

(** [points] when the condition holds. *)
Definition bonus (b : bool) (points : Z) : Z := if b then points else 0.

(** "+20 if length >= 8, +10 more if length >= 12, +10 more if length >= 16;
    +15 each for containing any lowercase letter, any uppercase letter, any
    digit, and any non-alphanumeric character; +10 if the count of distinct
    characters exceeds 70% of the password's length; with the sum clamped
    to the range [0, 100]."  Written from these words, with exact
    arithmetic: [u] exceeds 70% of [n] when [10 * u > 7 * n]. *)
Definition score (password : jsstring) : Z :=
  let n := strlen password in
  let sum :=
    bonus (8 <=? n) 20 + bonus (12 <=? n) 10 + bonus (16 <=? n) 10
    + bonus (test isLower password) 15 + bonus (test isUpper password) 15
    + bonus (test isDigit password) 15 + bonus (test isOther password) 15
    + bonus (7 * n <? 10 * Set_size password) 10 in
  Z.max 0 (Z.min 100 sum).

(** "empty or whitespace-only" *)
Definition whitespace_only (term : jsstring) : bool :=
  forallb isWhiteSpace term.

(** "[s] contains [term] as a case-insensitive substring": after case
    folding, [term] occurs in [s]. *)
Definition contains_ci (toLowerCase : jsstring -> jsstring)
    (s term : jsstring) : Prop :=
  exists before after,
    toLowerCase s = before ++ toLowerCase term ++ after.

(** Time does not run backwards. *)
Definition monotone (clock : nat -> Z) : Prop :=
  forall n : nat, clock n <= clock (S n).

(** The record was last stamped with a reading the clock has delivered. *)
Definition stamped (st : State) (entry : PasswordEntry) : Prop :=
  exists k : nat, (k <= ticks st)%nat /\ updatedAt entry = clock st k.

End Spec.

(* ===================================================================== *)
(** ** Concrete runtimes and records used below *)
(* ===================================================================== *)

Module Sample.

(** A medium that holds nothing yet and accepts writes. *)
Definition emptyStorage : LocalStorage := mkLocalStorage None true.

(** A medium that refuses every write. *)
Definition fullStorage : LocalStorage := mkLocalStorage None false.

(** A runtime whose clock advances by half a second at every reading and
    has been read [t] times. *)
Definition running (t : nat) (storage : LocalStorage) (srv : Response)
    (l : list PasswordEntry) : State :=
  mkState (fun n => 1000 + 500 * Z.of_nat n) t (fun n => Z.of_nat n) 0
          storage [] srv l.

(** A runtime in which all readings fall into the same millisecond. *)
Definition sameMillisecond : State :=
  mkState (fun _ => 1700000000000) 0 (fun n => Z.of_nat n) 0
          emptyStorage [] Rejected [].

Definition github : NewData.t :=
  NewData.make (js "GitHub") (js "alice") (js "hunter2")
               (Some (js "work email")).

Definition gitlab : NewData.t :=
  NewData.make (js "GitLab") (js "alice") (js "correct horse") None.

(** A record created at reading 1000 and never edited. *)
Definition stored : PasswordEntry :=
  mkEntry (js "1000") (js "GitHub") (js "alice") (js "hunter2")
          (Some (js "work email")) 1000 1000.

(** The same record with a last-modified stamp ahead of the clock of
    [running], as storage written under a clock set forward holds it. *)
Definition postdated : PasswordEntry :=
  mkEntry (js "1000") (js "GitHub") (js "alice") (js "hunter2")
          (Some (js "work email")) 1000 9999.

(** A backend that fulfils [IStorageService] and whose [savePasswords]
    throws. *)
Definition throwingBackend : IStorageService :=
  Build_IStorageService (ret []) (fun _ => throw BackendError) (ret tt).

(** The policy with all four categories and length 16. *)
Definition allCategories16 : Options.t := Options.make 16 true true true true.

(** Ninety code units, sixty-three of them distinct: the code units 33 to
    95, then 33 to 59 again. *)
Definition ninety : jsstring :=
  map Z.of_nat (seq 33 63) ++ map Z.of_nat (seq 33 27).

End Sample.

(* ===================================================================== *)
(** ** Vocabulary of the further properties *)
(* ===================================================================== *)

Module Support.

(** The symbols of the generator. *)
Definition symbols : jsstring := js "!@#$%^&*()_+-=[]{}|;:,.<>?".

(** The character a random word selects in an alphabet. *)
Definition pick (charset : jsstring) (word : Z) : Z :=
  nth (Z.to_nat (Z.rem word (strlen charset))) charset 0.

(** The runtime after [n] more readings of the clock. *)
Definition later (st : State) (n : nat) : State :=
  mkState (clock st) (ticks st + n) (entropy st) (drawn st)
          (localStorage st) (console st) (server st) (passwords st).

(** The runtime with another durable copy. *)
Definition with_item (st : State) (item : option StoredText) : State :=
  mkState (clock st) (ticks st) (entropy st) (drawn st)
          (mkLocalStorage item (writable (localStorage st)))
          (console st) (server st) (passwords st).

(** The runtime with another collection in memory. *)
Definition with_passwords (st : State) (l : list PasswordEntry) : State :=
  mkState (clock st) (ticks st) (entropy st) (drawn st)
          (localStorage st) (console st) (server st) l.

(** The runtime with one more error reported. *)
Definition with_report (st : State) (operation : jsstring) : State :=
  mkState (clock st) (ticks st) (entropy st) (drawn st)
          (localStorage st) (console st ++ [operation]) (server st)
          (passwords st).

(** The runtime after [LocalStorageService] was asked to save [l]: the
    durable copy is replaced if the medium takes the write, the failure is
    reported otherwise. *)
Definition flushed (st : State) (l : list PasswordEntry) : State :=
  if writable (localStorage st)
  then with_item st (Some (JSONArray (map Password.toJSON l)))
  else with_report st (js "saving passwords").

(** The record [addPassword] constructs in a runtime. *)
Definition created (st : State) (data : NewData.t) : PasswordEntry :=
  mkEntry (Number_toString (clock st (ticks st))) (NewData.website data)
          (NewData.username data) (NewData.password data)
          (NewData.notes data) (clock st (S (ticks st)))
          (clock st (S (S (ticks st)))).

(** The record [update] leaves in a runtime. *)
Definition edited (st : State) (p : PasswordEntry) (data : Partial.t)
    : PasswordEntry :=
  mkEntry (id p)
    (match Partial.website data with Some v => v | None => website p end)
    (match Partial.username data with Some v => v | None => username p end)
    (match Partial.password data with Some v => v | None => password p end)
    (match Partial.notes data with Some v => Some v | None => notes p end)
    (createdAt p) (clock st (ticks st)).

(** The runtime at the flush of [addPassword], of an [updatePassword] that
    found [p], and of a [deletePassword]: the mutation is applied in
    memory, the backend has not been called yet. *)
Definition atFlushOfAdd (st : State) (data : NewData.t) : State :=
  with_passwords (later st 3) (passwords st ++ [created st data]).

Definition atFlushOfUpdate (st : State) (i : jsstring) (p : PasswordEntry)
    (data : Partial.t) : State :=
  with_passwords (later st 1)
    (PasswordManager.assign_first (fun q => jsstring_eqb (id q) i)
                                  (edited st p data) (passwords st)).

Definition atFlushOfDelete (st : State) (i : jsstring) : State :=
  with_passwords st
    (List.filter (fun q => negb (jsstring_eqb (id q) i)) (passwords st)).

(** Two partial updates in a row as one: the later one wins. *)
Definition mergePartial (first second : Partial.t) : Partial.t :=
  let later_wins (a b : option jsstring) :=
    match b with Some v => Some v | None => a end in
  Partial.make
    (later_wins (Partial.website first) (Partial.website second))
    (later_wins (Partial.username first) (Partial.username second))
    (later_wins (Partial.password first) (Partial.password second))
    (later_wins (Partial.notes first) (Partial.notes second)).

(** Everything a record holds but [createdAt]. *)
Definition content (e : IPasswordEntry)
    : jsstring * jsstring * jsstring * jsstring * option jsstring * Z :=
  (id e, website e, username e, password e, notes e, updatedAt e).

(** The first record of a collection with a given id. *)
Definition firstWithId (i : jsstring) (l : list PasswordEntry)
    : option PasswordEntry :=
  find (fun q => jsstring_eqb (id q) i) l.

(** A password longer than seven characters with three character classes
    and a symbol. *)
Definition strongPassword : jsstring := js "Abcdefg1!".

End Support.

(* ===================================================================== *)
(** ** Properties of the credential record *)
(* ===================================================================== *)

Import Spec Sample Support.

Lemma monotone_running t storage srv l :
  monotone (clock (running t storage srv l)).
Proof. intros n. simpl. lia. Qed.

Lemma monotone_le (c : nat -> Z) (i j : nat) :
  monotone c -> (i <= j)%nat -> c i <= c j.
Proof.
  intros Hc Hij. induction Hij as [|j Hij IH].
  - lia.
  - specialize (Hc j). lia.
Qed.

(** What the constructor computes, reading by reading. *)
Lemma constructor_fresh w u p n st :
  Password.constructor w u p n None st =
    (Return (mkEntry (Number_toString (clock st (ticks st))) w u p n
                     (clock st (S (ticks st))) (clock st (S (S (ticks st))))),
     mkState (clock st) (S (S (S (ticks st)))) (entropy st) (drawn st)
             (localStorage st) (console st) (server st) (passwords st)).
Proof. reflexivity. Qed.

Lemma constructor_given w u p n i st :
  truthy i = true ->
  Password.constructor w u p n (Some i) st =
    (Return (mkEntry i w u p n (clock st (ticks st)) (clock st (S (ticks st)))),
     mkState (clock st) (S (S (ticks st))) (entropy st) (drawn st)
             (localStorage st) (console st) (server st) (passwords st)).
Proof. intros Hi. unfold Password.constructor. rewrite Hi. reflexivity. Qed.

(** A freshly constructed record is created no later than it is updated,
    as long as the clock is monotone. *)
Lemma constructor_ordered w u p n i st entry st' :
  monotone (clock st) ->
  Password.constructor w u p n i st = (Return entry, st') ->
  createdAt entry <= updatedAt entry.
Proof.
  intros Hc H.
  assert (Hfresh := constructor_fresh w u p n st).
  destruct i as [i|].
  - destruct (truthy i) eqn:Hi.
    + rewrite (constructor_given _ _ _ _ _ _ Hi) in H.
      injection H as <- _. simpl. apply Hc.
    + unfold Password.constructor in H. rewrite Hi in H.
      unfold Password.constructor in Hfresh. rewrite Hfresh in H.
      injection H as <- _. simpl. apply Hc.
  - rewrite Hfresh in H. injection H as <- _. simpl. apply Hc.
Qed.

(** Deserialisation keeps six of the seven fields of a record with an id;
    [createdAt] becomes the reading of the clock at the time of the call. *)
Lemma fromJSON_toJSON_fields entry st :
  truthy (id entry) = true ->
  exists entry' st',
    Password.fromJSON (Password.toJSON entry) st = (Return entry', st')
    /\ id entry' = id entry
    /\ website entry' = website entry
    /\ username entry' = username entry
    /\ password entry' = password entry
    /\ notes entry' = notes entry
    /\ updatedAt entry' = updatedAt entry
    /\ createdAt entry' = clock st (ticks st).
Proof.
  intros Hid. unfold Password.fromJSON, bind. simpl.
  rewrite (constructor_given _ _ _ _ _ _ Hid). simpl.
  eexists _, _. repeat split; reflexivity.
Qed.

(** Hence a record last stamped before the clock reading of the call comes
    back with [updatedAt] earlier than [createdAt]. *)
Lemma fromJSON_toJSON_disorder entry st :
  truthy (id entry) = true ->
  updatedAt entry < clock st (ticks st) ->
  exists entry' st',
    Password.fromJSON (Password.toJSON entry) st = (Return entry', st')
    /\ updatedAt entry' < createdAt entry'.
Proof.
  intros Hid Hpast.
  destruct (fromJSON_toJSON_fields entry st Hid)
    as (entry' & st' & Hrun & _ & _ & _ & _ & _ & Hu & Hc).
  exists entry', st'. split; [exact Hrun|]. rewrite Hu, Hc. exact Hpast.
Qed.

(** C1 (the code departs from the claim).  A record created at reading 1000
    is serialised and deserialised while the clock shows 3000: the result
    carries [createdAt = 3000], so [fromJSON (toJSON entry)] does not
    preserve [createdAt]; the other six fields are the original ones. *)
Theorem C1_fromJSON_resets_createdAt :
  exists entry' st',
    Password.fromJSON (Password.toJSON stored)
                      (running 4 emptyStorage Rejected []) = (Return entry', st')
    /\ createdAt stored = 1000
    /\ createdAt entry' = 3000
    /\ createdAt entry' <> createdAt stored
    /\ id entry' = id stored
    /\ website entry' = website stored
    /\ username entry' = username stored
    /\ password entry' = password stored
    /\ notes entry' = notes stored
    /\ updatedAt entry' = updatedAt stored.
Proof.
  eexists _, _. split; [reflexivity|]. simpl. repeat split; try reflexivity.
  discriminate.
Qed.

(** C2 (the code departs from the claim).  On a monotone clock, a record is
    constructed, serialised and read back by [fromJSON]: the record read
    back has [updatedAt] (2000) earlier than [createdAt] (2500), although
    the constructed one was ordered. *)
Theorem C2_fromJSON_breaks_order :
  monotone (clock (running 0 emptyStorage Rejected []))
  /\ exists entry st1 entry' st2,
       Password.constructor (js "GitHub") (js "alice") (js "hunter2") None None
         (running 0 emptyStorage Rejected []) = (Return entry, st1)
       /\ createdAt entry <= updatedAt entry
       /\ Password.fromJSON (Password.toJSON entry) st1 = (Return entry', st2)
       /\ updatedAt entry' = 2000
       /\ createdAt entry' = 2500
       /\ updatedAt entry' < createdAt entry'.
Proof.
  split; [apply monotone_running|].
  eexists _, _, _, _. split; [reflexivity|]. split; [simpl; lia|].
  split; [reflexivity|]. simpl. repeat split; lia.
Qed.

Lemma update_runs this data st :
  Password.update this data st =
    (Return
       (mkEntry (id this)
          (match Partial.website data with Some v => v | None => website this end)
          (match Partial.username data with Some v => v | None => username this end)
          (match Partial.password data with Some v => v | None => password this end)
          (match Partial.notes data with Some v => Some v | None => notes this end)
          (createdAt this) (clock st (ticks st))),
     mkState (clock st) (S (ticks st)) (entropy st) (drawn st)
             (localStorage st) (console st) (server st) (passwords st)).
Proof. reflexivity. Qed.

(** An update keeps a record ordered, as long as the clock is monotone and
    the record was created at a reading already delivered. *)
Lemma update_ordered this data st this' st' k :
  monotone (clock st) -> (k <= ticks st)%nat -> createdAt this = clock st k ->
  Password.update this data st = (Return this', st') ->
  createdAt this' <= updatedAt this'.
Proof.
  intros Hc Hk Hcreated H. rewrite update_runs in H. injection H as <- _.
  simpl. rewrite Hcreated. now apply monotone_le.
Qed.

(** C8, amended.  [update] overwrites exactly the fields the partial
    carries, the empty string included, leaves the others, the id and
    [createdAt] alone, and stamps [updatedAt] with the current reading of
    the clock, for every record and every partial; with the empty partial
    the content is unchanged.  [updatedAt] does not decrease exactly when
    the previous stamp is not ahead of that reading, as on a monotone clock
    for a record stamped with a past reading. *)
Theorem C8_update this data st :
  exists this' st',
    Password.update this data st = (Return this', st')
    /\ website this' =
         match Partial.website data with Some v => v | None => website this end
    /\ username this' =
         match Partial.username data with Some v => v | None => username this end
    /\ password this' =
         match Partial.password data with Some v => v | None => password this end
    /\ notes this' =
         match Partial.notes data with Some v => Some v | None => notes this end
    /\ id this' = id this
    /\ createdAt this' = createdAt this
    /\ updatedAt this' = clock st (ticks st)
    /\ (updatedAt this <= updatedAt this'
        <-> updatedAt this <= clock st (ticks st))
    /\ (monotone (clock st) -> stamped st this ->
        updatedAt this <= updatedAt this' /\ stamped st' this')
    /\ exists this0 st0,
         Password.update this Partial.empty st = (Return this0, st0)
         /\ website this0 = website this
         /\ username this0 = username this
         /\ password this0 = password this
         /\ notes this0 = notes this
         /\ id this0 = id this
         /\ createdAt this0 = createdAt this
         /\ updatedAt this0 = clock st (ticks st).
Proof.
  eexists _, _. split; [apply update_runs|]. simpl.
  repeat (split; [reflexivity|]). split.
  - intros Hc (k & Hk & Hstamp). split.
    + rewrite Hstamp. now apply monotone_le.
    + exists (ticks st). simpl. split; [lia | reflexivity].
  - eexists _, _. split; [apply update_runs|]. simpl.
    repeat split; reflexivity.
Qed.

(** C8, as stated, fails: a record whose [updatedAt] is 9999 is updated,
    with the empty partial, while the monotone clock reads 3000; its
    [updatedAt] becomes 3000, less than before. *)
Lemma C8_updatedAt_can_decrease :
  monotone (clock (running 4 emptyStorage Rejected []))
  /\ exists this' st',
       Password.update postdated Partial.empty
                       (running 4 emptyStorage Rejected []) = (Return this', st')
       /\ updatedAt postdated = 9999
       /\ updatedAt this' = 3000
       /\ ~ (updatedAt postdated <= updatedAt this').
Proof.
  split; [apply monotone_running|].
  eexists _, _. split; [reflexivity|]. simpl.
  split; [reflexivity|]. split; [reflexivity|]. lia.
Qed.

(* ===================================================================== *)
(** ** Properties of the generator *)
(* ===================================================================== *)

Import PasswordGenerator.

Lemma getCharacterSet_truthy options : truthy (getCharacterSet options) = true.
Proof.
  destruct options as [n [] [] [] []]; reflexivity.
Qed.

Lemma charAt_member charset v :
  truthy charset = true -> 0 <= v ->
  exists c, charAt charset (Z.rem v (strlen charset)) = [c] /\ In c charset.
Proof.
  intros Hne Hv.
  assert (Hlen : 0 < strlen charset)
    by (destruct charset; [discriminate | unfold strlen; simpl; lia]).
  destruct (Z.rem_bound_pos v (strlen charset) Hv Hlen) as [Hlo Hhi].
  unfold charAt.
  destruct (nth_error charset (Z.to_nat (Z.rem v (strlen charset)))) as [c|] eqn:Hnth.
  - exists c. split; [reflexivity|]. eapply nth_error_In; eassumption.
  - apply nth_error_None in Hnth. unfold strlen in *. lia.
Qed.

Lemma generate_loop_spec charset array :
  truthy charset = true -> Forall (fun v => 0 <= v) array ->
  forall acc,
    Forall (fun c => In c charset) acc ->
    List.length (generate_loop charset array acc)
      = (List.length acc + List.length array)%nat
    /\ Forall (fun c => In c charset) (generate_loop charset array acc).
Proof.
  intros Hne Harr. induction Harr as [|v rest Hv _ IH]; intros acc Hacc.
  - simpl. split; [lia | exact Hacc].
  - simpl.
    destruct (charAt_member charset v Hne Hv) as (c & Hc & Hin).
    rewrite Hc.
    destruct (IH (acc ++ [c])) as [Hlen Hall].
    + apply Forall_app. split; [exact Hacc | repeat constructor; exact Hin].
    + split; [|exact Hall]. rewrite Hlen, length_app. simpl. lia.
Qed.

Lemma random_words_nonneg (f : nat -> Z) (l : list nat) :
  Forall (fun v => 0 <= v) (map (fun i => f i mod 2 ^ 32) l).
Proof.
  apply List.Forall_forall. intros v Hv. apply in_map_iff in Hv as (i & <- & _).
  apply Z.mod_pos_bound. lia.
Qed.

(** For a length the typed array and the random source accept, the
    generator returns that many characters of the policy's alphabet. *)
Lemma generatePassword_spec options st :
  0 <= Options.length options <= 16384 ->
  exists pw st',
    generatePassword options st = (Return pw, st')
    /\ strlen pw = Options.length options
    /\ Forall (fun c => In c (getCharacterSet options)) pw.
Proof.
  intros [Hlo Hhi]. unfold generatePassword, bind, new_Uint32Array.
  destruct (Z.ltb_spec (Options.length options) 0); [lia|].
  unfold ret at 1. unfold crypto_getRandomValues.
  rewrite repeat_length.
  destruct (Z.ltb_spec 65536 (4 * Z.of_nat (Z.to_nat (Options.length options))));
    [lia|].
  unfold ret.
  destruct (generate_loop_spec (getCharacterSet options)
              (map (fun i => entropy st (drawn st + i)%nat mod 2 ^ 32)
                   (seq 0 (Z.to_nat (Options.length options))))
              (getCharacterSet_truthy options)
              (random_words_nonneg _ _) [] (List.Forall_nil _)) as [Hlen Hall].
  eexists _, _. split; [reflexivity|]. split; [|exact Hall].
  unfold strlen. rewrite Hlen, length_map, length_seq. simpl. lia.
Qed.

(** C4, amended.  With the policy of length 16 and all four categories,
    whatever the random source delivers, [generatePassword] returns a
    string of exactly 16 characters, each of them in the alphabet
    a-z, A-Z, 0-9 and the 26 symbols, in this order: 88 characters, all
    different. *)
Theorem C4_generatePassword_16 st :
  exists pw st',
    generatePassword allCategories16 st = (Return pw, st')
    /\ strlen pw = 16
    /\ Forall (fun c => In c (getCharacterSet allCategories16)) pw
    /\ getCharacterSet allCategories16
         = js "abcdefghijklmnopqrstuvwxyz" ++ js "ABCDEFGHIJKLMNOPQRSTUVWXYZ"
           ++ js "0123456789" ++ js "!@#$%^&*()_+-=[]{}|;:,.<>?"
    /\ strlen (getCharacterSet allCategories16) = 88
    /\ NoDup (getCharacterSet allCategories16).
Proof.
  destruct (generatePassword_spec allCategories16 st) as (pw & st' & Hrun & Hlen & Hall);
    [simpl; lia|].
  exists pw, st'. repeat (split; [assumption || reflexivity|]).
  apply (bool_decide_unpack _). vm_compute. reflexivity.
Qed.

(** C4, as stated, fails: the alphabet of the four categories has 88
    characters, not 94. *)
Lemma C4_alphabet_is_not_94 :
  strlen (getCharacterSet allCategories16) <> 94.
Proof. vm_compute. discriminate. Qed.

(** C9.  With no category enabled, [getCharacterSet] returns the 26
    lowercase letters a to z, whatever the length of the policy. *)
Theorem C9_getCharacterSet_fallback n :
  getCharacterSet (Options.make n false false false false)
    = js "abcdefghijklmnopqrstuvwxyz"
  /\ getCharacterSet (Options.make n false false false false)
    = map Z.of_nat (seq 97 26)
  /\ strlen (getCharacterSet (Options.make n false false false false)) = 26.
Proof. repeat split; reflexivity. Qed.

(** C6, amended.  The empty password scores 0; "password" scores 45: 20 for
    its length, 15 for its lowercase letters and 10 because its 7 distinct
    characters exceed 70% of its 8; 45 is classified Fair. *)
Theorem C6_score_examples :
  calculateStrength [] = 0
  /\ strlen (js "password") = 8
  /\ Set_size (js "password") = 7
  /\ calculateStrength (js "password") = 45
  /\ getStrengthLevel (calculateStrength (js "password")) = Fair.
Proof. repeat split; vm_compute; reflexivity. Qed.

(** C6, as stated, fails: the score of "password" is not 35. *)
Lemma C6_password_is_not_35 : calculateStrength (js "password") <> 35.
Proof. vm_compute. discriminate. Qed.

(** An integer exceeds a double exactly when it exceeds its integral part. *)
Lemma Z_gtb_floor n x : Z_gtb n x = (floor x <? n).
Proof.
  unfold Z_gtb, floor. destruct (Z.leb_spec 0 (expo x)) as [Hpos|Hneg].
  - reflexivity.
  - assert (Hpow : 0 < 2 ^ (- expo x)) by (apply Z.pow_pos_nonneg; lia).
    destruct (Z.ltb_spec (mant x) (n * 2 ^ (- expo x))) as [H|H];
      destruct (Z.ltb_spec (mant x / 2 ^ (- expo x)) n) as [H'|H'];
      try reflexivity; exfalso;
      pose proof (Z.div_mod (mant x) (2 ^ (- expo x)));
      pose proof (Z.mod_pos_bound (mant x) (2 ^ (- expo x)) Hpow); nia.
Qed.

(** Below 90, the integral part of the double [n * 0.7] is that of the
    rational 7n/10. *)
Lemma floor_times_0_7 n :
  0 <= n < 90 -> floor (b64_mul (of_Z n) lit_0_7) = 7 * n / 10.
Proof.
  intros Hn.
  assert (Hall : forallb
            (fun k => floor (b64_mul (of_Z (Z.of_nat k)) lit_0_7)
                      =? 7 * Z.of_nat k / 10)
            (seq 0 90) = true) by (vm_compute; reflexivity).
  rewrite forallb_forall in Hall.
  specialize (Hall (Z.to_nat n)). rewrite Z2Nat.id in Hall by lia.
  apply Z.eqb_eq, Hall, in_seq. lia.
Qed.

Lemma div_between a b q : 0 < b -> q * b <= a < (q + 1) * b -> a / b = q.
Proof.
  intros Hb Hq. pose proof (Z.div_mod a b ltac:(lia)).
  pose proof (Z.mod_pos_bound a b Hb). nia.
Qed.

(** The double [0.7] is (7 * 2^53 - 4) / (10 * 2^53): off the multiples of
    ten, [n * 0.7] stays clear of the integers around 7n/10. *)
Lemma seven_tenths_bounds n :
  0 <= n < 2 ^ 32 -> n mod 10 <> 0 ->
  (7 * n / 10) * 2 ^ 53 <= n * 6305039478318694
  /\ n * 6305039478318694 + 2 ^ 49 < (7 * n / 10 + 1) * 2 ^ 53.
Proof.
  change (2 ^ 32) with 4294967296. change (2 ^ 53) with 9007199254740992.
  change (2 ^ 49) with 562949953421312.
  intros Hn Hmod.
  pose proof (Z.div_mod n 10 ltac:(lia)) as Hd1.
  pose proof (Z.mod_pos_bound n 10 ltac:(lia)) as Hb1.
  pose proof (Z.div_mod (7 * n) 10 ltac:(lia)) as Hd.
  pose proof (Z.mod_pos_bound (7 * n) 10 ltac:(lia)) as Hb.
  set (K := 7 * n / 10) in *. set (r := (7 * n) mod 10) in *.
  set (a := n / 10) in *. set (b := n mod 10) in *.
  clearbody K r a b. lia.
Qed.

(** Whenever the length is not a multiple of ten, rounding the product
    does not change its integral part. *)
Lemma floor_times_0_7_off_tens n :
  0 <= n < 2 ^ 32 -> n mod 10 <> 0 ->
  floor (b64_mul (of_Z n) lit_0_7) = 7 * n / 10.
Proof.
  intros Hn Hmod.
  destruct (seven_tenths_bounds n Hn Hmod) as [Hlo Hhi].
  unfold b64_mul, of_Z, lit_0_7, round53. cbn [mant expo].
  set (N := n * 6305039478318694) in *.
  set (K := 7 * n / 10) in *.
  destruct (Z.ltb_spec (Z.log2 N) 53) as [Hsmall|Hbig].
  - unfold floor. cbn [mant expo]. change (0 <=? 0 + -53) with false. cbv iota.
    change (- (0 + -53)) with 53. apply div_between; lia.
  - assert (HN : 0 < N) by (destruct (Z.lt_ge_cases 0 N) as [|Hle]; [assumption|];
      rewrite (Z.log2_nonpos N Hle) in Hbig; lia).
    assert (Hlog : Z.log2 N < 85).
    { apply Z.log2_lt_pow2; [exact HN|]. change (2 ^ 32) with 4294967296 in Hn.
      change (2 ^ 85) with 38685626227668133590597632. subst N. lia. }
    set (s := Z.log2 N - 52) in *.
    assert (Hs : 1 <= s <= 32) by (subst s; lia).
    rewrite Z.shiftr_div_pow2, !Z.shiftl_mul_pow2 by lia.
    set (q := N / 2 ^ s).
    assert (HP : 0 < 2 ^ s) by (apply Z.pow_pos_nonneg; lia).
    assert (HQ : 0 < 2 ^ (53 - s)) by (apply Z.pow_pos_nonneg; lia).
    assert (HPQ : 2 ^ (53 - s) * 2 ^ s = 2 ^ 53)
      by (rewrite <- Z.pow_add_r by lia; f_equal; lia).
    assert (HP49 : 2 ^ s <= 2 ^ 49) by (apply Z.pow_le_mono_r; lia).
    assert (Hq1 : K * 2 ^ (53 - s) <= q).
    { apply Z.div_le_lower_bound; [exact HP|]. nia. }
    assert (Hq2 : q + 1 < (K + 1) * 2 ^ (53 - s)).
    { pose proof (Z.mul_div_le N (2 ^ s) HP). fold q in H. nia. }
    match goal with
    | |- floor (B64 (if ?c then q + 1 else q) _) = _ => destruct c
    end; unfold floor; cbn [mant expo];
      (destruct (Z.leb_spec 0 (0 + -53 + s)); [lia|]);
      replace (- (0 + -53 + s)) with (53 - s) by lia;
      apply div_between; lia.
Qed.

(** At 90 it is not: the product rounds to 62.99999999999999. *)
Lemma floor_90_times_0_7 :
  b64_mul (of_Z 90) lit_0_7 = B64 8866461766385663 (-47)
  /\ floor (b64_mul (of_Z 90) lit_0_7) = 62
  /\ 7 * 90 / 10 = 63.
Proof. repeat split; vm_compute; reflexivity. Qed.

(** [calculateStrength] is the additive heuristic of the design document
    whenever the double [length * 0.7] has the integral part of 7n/10. *)
Lemma calculateStrength_score_of_floor pw :
  floor (b64_mul (of_Z (strlen pw)) lit_0_7) = 7 * strlen pw / 10 ->
  calculateStrength pw = Spec.score pw.
Proof.
  intros Hfloor. destruct pw as [|c pw']; [reflexivity|].
  set (pw := c :: pw') in *.
  unfold calculateStrength, Spec.score, bonus.
  replace (truthy pw) with true by reflexivity. cbv zeta. simpl negb. cbv iota.
  rewrite Z_gtb_floor, Hfloor.
  assert (Hthr : (7 * strlen pw / 10 <? Set_size pw)
                 = (7 * strlen pw <? 10 * Set_size pw)).
  { destruct (Z.ltb_spec (7 * strlen pw / 10) (Set_size pw));
      destruct (Z.ltb_spec (7 * strlen pw) (10 * Set_size pw));
      try reflexivity; exfalso;
      pose proof (Z.div_mod (7 * strlen pw) 10);
      pose proof (Z.mod_pos_bound (7 * strlen pw) 10); lia. }
  rewrite Hthr.
  destruct (8 <=? strlen pw), (12 <=? strlen pw), (16 <=? strlen pw),
    (test isLower pw), (test isUpper pw), (test isDigit pw), (test isOther pw),
    (7 * strlen pw <? 10 * Set_size pw); reflexivity.
Qed.

(** So it is for every password shorter than 90 code units, *)
Lemma calculateStrength_score_below_90 pw :
  strlen pw < 90 -> calculateStrength pw = Spec.score pw.
Proof.
  intros Hlen. apply calculateStrength_score_of_floor, floor_times_0_7.
  unfold strlen in *. lia.
Qed.

(** and for every password whose length is not a multiple of ten. *)
Lemma calculateStrength_score_off_tens pw :
  strlen pw < 2 ^ 32 -> strlen pw mod 10 <> 0 ->
  calculateStrength pw = Spec.score pw.
Proof.
  intros Hlen Hmod. apply calculateStrength_score_of_floor.
  apply floor_times_0_7_off_tens; [|exact Hmod]. unfold strlen in *. lia.
Qed.

(** C7 (the code departs from the claim).  For a password of 90 code units
    with 63 distinct characters, upper-case letters, digits and symbols,
    the heuristic of the claim gives 40 + 45 = 85, since 63 does not exceed
    70% of 90; [calculateStrength] gives 95: the double [90 * 0.7] is
    62.99999999999999, which 63 exceeds. *)
Theorem C7_calculateStrength_at_90 :
  strlen ninety = 90
  /\ Set_size ninety = 63
  /\ Spec.score ninety = 85
  /\ calculateStrength ninety = 95
  /\ Z_gtb 63 (b64_mul (of_Z 90) lit_0_7) = true.
Proof. repeat split; vm_compute; reflexivity. Qed.

(* ===================================================================== *)
(** ** Strings: prefixes, occurrences and trimming *)
(* ===================================================================== *)

Lemma startsWith_spec s t :
  startsWith s t = true <-> exists after, s = t ++ after.
Proof.
  revert s. induction t as [|d t' IH]; intros s.
  - destruct s; simpl; split; eauto.
  - destruct s as [|c s']; simpl.
    + split; [discriminate | intros [after H]; discriminate].
    + rewrite andb_true_iff, Z.eqb_eq, IH. split.
      * intros [-> [after ->]]. eauto.
      * intros [after H]. injection H as -> ->. eauto.
Qed.

Lemma includes_spec s t :
  includes s t = true <-> exists before after, s = before ++ t ++ after.
Proof.
  induction s as [|c s' IH].
  - change (includes [] t) with (startsWith [] t || false).
    rewrite orb_true_iff, startsWith_spec. split.
    + intros [[after H]|H]; [|discriminate]. exists [], after. exact H.
    + intros (before & after & H). left.
      destruct before; [simpl in H; eauto | discriminate].
  - change (includes (c :: s') t)
      with (startsWith (c :: s') t || includes s' t).
    rewrite orb_true_iff, startsWith_spec, IH. split.
    + intros [[after H]|(before & after & ->)].
      * exists [], after. exact H.
      * exists (c :: before), after. reflexivity.
    + intros (before & after & H). destruct before as [|c' before'].
      * left. eauto.
      * right. injection H as _ ->. eauto.
Qed.

Lemma trimStart_nil s :
  trimStart s = [] <-> forallb isWhiteSpace s = true.
Proof.
  induction s as [|c s' IH]; simpl; [tauto|].
  destruct (isWhiteSpace c); simpl; [exact IH|].
  split; discriminate.
Qed.

Lemma trimStart_head s c r : trimStart s = c :: r -> isWhiteSpace c = false.
Proof.
  induction s as [|d s' IH]; simpl; [discriminate|].
  destruct (isWhiteSpace d) eqn:Hd; [exact IH|].
  intros H. injection H as -> _. exact Hd.
Qed.

Lemma forallb_rev (f : Z -> bool) l : forallb f (rev l) = forallb f l.
Proof.
  induction l as [|x l IH]; [reflexivity|].
  simpl. rewrite forallb_app, IH. simpl. rewrite andb_true_r. apply andb_comm.
Qed.

(** [!term.trim()] holds exactly for the strings made of white space. *)
Lemma trim_falsy term : negb (truthy (trim term)) = whitespace_only term.
Proof.
  unfold whitespace_only, trim, trimEnd.
  destruct (forallb isWhiteSpace term) eqn:Hall.
  - apply trimStart_nil in Hall. rewrite Hall. reflexivity.
  - destruct (trimStart term) as [|c r] eqn:Hts.
    + apply trimStart_nil in Hts. congruence.
    + destruct (rev (trimStart (rev (c :: r)))) as [|x y] eqn:Hrev;
        [|reflexivity].
      exfalso. apply (f_equal (@rev Z)) in Hrev. rewrite rev_involutive in Hrev.
      simpl rev at 2 in Hrev. apply trimStart_nil in Hrev.
      rewrite forallb_rev in Hrev. simpl in Hrev.
      rewrite (trimStart_head _ _ _ Hts) in Hrev. discriminate.
Qed.

(* ===================================================================== *)
(** ** Properties of the store *)
(* ===================================================================== *)

(** C5, amended.  With a term that is empty or all white space the store's
    search returns what [getAllPasswords] returns; otherwise it returns, in
    the order of the collection, exactly the records whose website or
    username contains the term as a case-insensitive substring.  The
    network-backed search applies the same rule to the list it fetches,
    and fails when the fetch fails, but it also returns the records whose
    notes contain the term. *)
Theorem C5_searchPasswords (toLowerCase : jsstring -> jsstring) term st :
  (exists f,
     PasswordManager.searchPasswords toLowerCase term st =
       (Return (if whitespace_only term then passwords st
                else List.filter f (passwords st)), st)
     /\ PasswordManager.getAllPasswords st = (Return (passwords st), st)
     /\ forall r,
          f r = true <->
          contains_ci toLowerCase (website r) term
          \/ contains_ci toLowerCase (username r) term)
  /\ (exists g,
        PasswordAPIService.searchPasswords toLowerCase term st =
          match PasswordAPIService.getAllPasswords st with
          | (Return all, st') =>
              (Return (if whitespace_only term then all
                       else List.filter g all), st')
          | (Throw e, st') => (Throw e, st')
          end
        /\ forall r,
             g r = true <->
             contains_ci toLowerCase (website r) term
             \/ contains_ci toLowerCase (username r) term
             \/ exists n, notes r = Some n
                          /\ contains_ci toLowerCase n term).
Proof.
  split.
  - eexists. split; [|split; [reflexivity|]].
    + unfold PasswordManager.searchPasswords. rewrite trim_falsy.
      destruct (whitespace_only term); reflexivity.
    + intros r. cbv beta. rewrite orb_true_iff, !includes_spec. reflexivity.
  - eexists. split.
    + unfold PasswordAPIService.searchPasswords, bind. rewrite trim_falsy.
      destruct (PasswordAPIService.getAllPasswords st) as [[all|e] st'];
        [|reflexivity].
      destruct (whitespace_only term); reflexivity.
    + intros r. cbv beta. rewrite !orb_true_iff, !includes_spec.
      unfold contains_ci. destruct (notes r) as [n|].
      * rewrite includes_spec. split.
        -- intros [[H|H]|H]; eauto 6.
        -- intros [H|[H|(n' & Hn & H)]]; eauto.
           injection Hn as <-. eauto.
      * split.
        -- intros [[H|H]|H]; eauto. discriminate.
        -- intros [H|[H|(n' & Hn & H)]]; eauto. discriminate.
Qed.

(** The record of "GitHub" is found by "git", "GIT" and "Hub", not by
    "xyz", and a blank term returns the collection. *)
Example search_GitHub :
  let st := running 4 emptyStorage Rejected [stored] in
  let search term :=
    fst (PasswordManager.searchPasswords asciiToLowerCase term st) in
  search (js "git") = Return [stored]
  /\ search (js "GIT") = Return [stored]
  /\ search (js "Hub") = Return [stored]
  /\ search (js "xyz") = Return []
  /\ search [] = Return [stored]
  /\ search (js "   ") = Return [stored].
Proof. repeat split; vm_compute; reflexivity. Qed.

(** C5, as stated, fails: the store and the server hold the same record,
    whose notes mention "work"; the store's search for "work" finds
    nothing, the network-backed search returns the record. *)
Lemma C5_remote_search_differs :
  let st := running 4 emptyStorage (Responded 200 [Password.toJSON stored])
                    [stored] in
  fst (PasswordManager.searchPasswords asciiToLowerCase (js "work") st)
    = Return []
  /\ exists found,
       fst (PasswordAPIService.searchPasswords asciiToLowerCase (js "work") st)
         = Return [found]
       /\ id found = id stored
       /\ notes found = Some (js "work email").
Proof.
  split; [reflexivity|]. eexists. split; [reflexivity|].
  split; reflexivity.
Qed.

Lemma find_filter_shorter (f : PasswordEntry -> bool) l p :
  find f l = Some p ->
  (List.length (List.filter (fun q => negb (f q)) l) < List.length l)%nat.
Proof.
  induction l as [|q l IH]; simpl; [discriminate|].
  destruct (f q) eqn:Hq; simpl.
  - intros _. pose proof (filter_length_le (fun q => negb (f q)) l). lia.
  - intros H. specialize (IH H). lia.
Qed.

Lemma find_filter_gone (f : PasswordEntry -> bool) l p :
  find f l = Some p -> ~ In p (List.filter (fun q => negb (f q)) l).
Proof.
  intros H Hin. apply find_some in H as [_ Hf].
  apply filter_In in Hin as [_ Hn]. rewrite Hf in Hn. discriminate.
Qed.

Lemma assign_first_In (f : PasswordEntry -> bool) updated l p :
  find f l = Some p -> In updated (PasswordManager.assign_first f updated l).
Proof.
  induction l as [|q l IH]; simpl; [discriminate|].
  destruct (f q); simpl; [intros _; now left | intros H; right; auto].
Qed.

Lemma assign_first_length (f : PasswordEntry -> bool) updated l :
  List.length (PasswordManager.assign_first f updated l) = List.length l.
Proof.
  induction l as [|q l IH]; simpl; [reflexivity|].
  destruct (f q); simpl; congruence.
Qed.

(** The store has no handler of its own: what [savePasswords] of the
    backend does at the flush is what [addPassword] does after it has
    appended the new record. *)
Lemma addPassword_flush svc data st :
  exists entry st1,
    Password.constructor (NewData.website data) (NewData.username data)
      (NewData.password data) (NewData.notes data) None st
      = (Return entry, st1)
    /\ PasswordManager.addPassword svc data st =
         match StorageService.savePasswords svc (passwords st ++ [entry])
                 (mkState (clock st1) (ticks st1) (entropy st1) (drawn st1)
                    (localStorage st1) (console st1) (server st1)
                    (passwords st ++ [entry])) with
         | (Return _, st2) => (Return entry, st2)
         | (Throw e, st2) => (Throw e, st2)
         end.
Proof.
  eexists _, _. split; [apply constructor_fresh|].
  unfold PasswordManager.addPassword, PasswordManager.savePasswords, bind.
  rewrite constructor_fresh. simpl.
  destruct (StorageService.savePasswords svc _ _) as [[[]|e] st2]; reflexivity.
Qed.

(** C3, as stated, fails: with a backend whose [savePasswords] throws,
    [addPassword] throws as well; the record it appended stays in the
    collection. *)
Lemma C3_backend_error_propagates :
  (forall l st,
     StorageService.savePasswords throwingBackend l st
       = (Throw BackendError, st))
  /\ exists entry st',
       PasswordManager.addPassword throwingBackend github
           (running 0 emptyStorage Rejected [])
         = (Throw BackendError, st')
       /\ passwords st' = [entry]
       /\ website entry = js "GitHub".
Proof.
  split; [reflexivity|].
  eexists _, _. split; [reflexivity|]. split; reflexivity.
Qed.

(** What the three mutations do with any backend: the mutation is applied
    in memory, then the backend is asked to save, and what it answers is
    what the store answers: the store has no handler of its own. *)
Lemma addPassword_any svc data st :
  PasswordManager.addPassword svc data st =
    match StorageService.savePasswords svc
            (passwords (atFlushOfAdd st data)) (atFlushOfAdd st data) with
    | (Return _, st2) => (Return (created st data), st2)
    | (Throw e, st2) => (Throw e, st2)
    end.
Proof.
  unfold PasswordManager.addPassword, PasswordManager.savePasswords, bind.
  rewrite constructor_fresh. cbn [get_passwords set_passwords passwords].
  unfold atFlushOfAdd, with_passwords, later, created.
  cbn [clock ticks entropy drawn localStorage console server passwords].
  replace (ticks st + 3)%nat with (S (S (S (ticks st)))) by lia.
  destruct (StorageService.savePasswords svc _ _) as [[[]|e] st2]; reflexivity.
Qed.

Lemma updatePassword_any svc i data st p :
  firstWithId i (passwords st) = Some p ->
  PasswordManager.updatePassword svc i data st =
    match StorageService.savePasswords svc
            (passwords (atFlushOfUpdate st i p data))
            (atFlushOfUpdate st i p data) with
    | (Return _, st2) => (Return (Some (edited st p data)), st2)
    | (Throw e, st2) => (Throw e, st2)
    end.
Proof.
  intros Hfind. unfold firstWithId in Hfind.
  unfold PasswordManager.updatePassword, PasswordManager.savePasswords, bind.
  cbn [get_passwords]. rewrite Hfind, update_runs.
  cbn [get_passwords set_passwords passwords].
  unfold atFlushOfUpdate, with_passwords, later, edited.
  cbn [clock ticks entropy drawn localStorage console server passwords].
  replace (ticks st + 1)%nat with (S (ticks st)) by lia.
  destruct (StorageService.savePasswords svc _ _) as [[[]|e] st2]; reflexivity.
Qed.

Lemma deletePassword_any svc i st p :
  firstWithId i (passwords st) = Some p ->
  PasswordManager.deletePassword svc i st =
    match StorageService.savePasswords svc
            (passwords (atFlushOfDelete st i)) (atFlushOfDelete st i) with
    | (Return _, st2) => (Return true, st2)
    | (Throw e, st2) => (Throw e, st2)
    end.
Proof.
  intros Hfind. unfold firstWithId in Hfind.
  unfold PasswordManager.deletePassword, PasswordManager.savePasswords, bind.
  cbn [get_passwords set_passwords passwords].
  match goal with
  | |- context [?a <? ?b] =>
      replace (a <? b) with true
        by (symmetry; apply Z.ltb_lt, inj_lt,
              (find_filter_shorter _ _ _ Hfind))
  end.
  unfold atFlushOfDelete, with_passwords.
  cbn [clock ticks entropy drawn localStorage console server passwords].
  destruct (StorageService.savePasswords svc _ _) as [[[]|e] st2]; reflexivity.
Qed.

(** A write the medium refuses is caught and reported by the backend. *)
Lemma savePasswords_refused l st :
  writable (localStorage st) = false ->
  LocalStorageService.savePasswords l st
    = (Return tt, with_report st (js "saving passwords")).
Proof.
  intros Hw.
  unfold LocalStorageService.savePasswords, try_catch, localStorage_setItem.
  rewrite Hw. reflexivity.
Qed.

(** C3, amended.  With the [LocalStorageService] backend, a write that
    [localStorage] refuses is caught and logged by the backend's own
    [savePasswords]: [addPassword], [updatePassword] of a stored id and
    [deletePassword] of a stored id return their result, the collection in
    memory keeps the mutation, and the durable copy stays as it was.  The
    store has no handler of its own: with any backend, when [savePasswords]
    throws at the flush, the exception comes out of [addPassword], of
    [updatePassword] of a stored id and of [deletePassword] of a stored id,
    the flush being run with the mutation already applied in memory. *)
Theorem C3_localStorage_failure data i partial st :
  (writable (localStorage st) = false ->
   (exists entry st',
      PasswordManager.addPassword LocalStorageService.getInstance data st
        = (Return entry, st')
      /\ passwords st' = passwords st ++ [entry]
      /\ website entry = NewData.website data
      /\ localStorage st' = localStorage st
      /\ console st' = console st ++ [js "saving passwords"])
   /\ forall p, firstWithId i (passwords st) = Some p ->
      (exists p' st',
         PasswordManager.updatePassword LocalStorageService.getInstance
             i partial st
           = (Return (Some p'), st')
         /\ Password.update p partial st = (Return p', snd (Date_now st))
         /\ passwords st'
              = PasswordManager.assign_first
                  (fun q => jsstring_eqb (id q) i) p' (passwords st)
         /\ In p' (passwords st')
         /\ localStorage st' = localStorage st
         /\ console st' = console st ++ [js "saving passwords"])
      /\ (exists st',
            PasswordManager.deletePassword LocalStorageService.getInstance i st
              = (Return true, st')
            /\ passwords st'
                 = List.filter (fun q => negb (jsstring_eqb (id q) i))
                               (passwords st)
            /\ ~ In p (passwords st')
            /\ localStorage st' = localStorage st
            /\ console st' = console st ++ [js "saving passwords"]))
  /\ (forall svc e st2,
        (StorageService.savePasswords svc
           (passwords (atFlushOfAdd st data)) (atFlushOfAdd st data)
           = (Throw e, st2) ->
         PasswordManager.addPassword svc data st = (Throw e, st2))
        /\ (forall p, firstWithId i (passwords st) = Some p ->
            StorageService.savePasswords svc
              (passwords (atFlushOfUpdate st i p partial))
              (atFlushOfUpdate st i p partial) = (Throw e, st2) ->
            PasswordManager.updatePassword svc i partial st = (Throw e, st2))
        /\ (forall p, firstWithId i (passwords st) = Some p ->
            StorageService.savePasswords svc
              (passwords (atFlushOfDelete st i)) (atFlushOfDelete st i)
              = (Throw e, st2) ->
            PasswordManager.deletePassword svc i st = (Throw e, st2)))
  /\ passwords (atFlushOfAdd st data) = passwords st ++ [created st data]
  /\ (forall p,
        passwords (atFlushOfUpdate st i p partial)
        = PasswordManager.assign_first (fun q => jsstring_eqb (id q) i)
            (edited st p partial) (passwords st))
  /\ passwords (atFlushOfDelete st i)
     = List.filter (fun q => negb (jsstring_eqb (id q) i)) (passwords st).
Proof.
  split; [|split; [|repeat split; reflexivity]].
  - intros Hw. split.
    + rewrite addPassword_any.
      cbn [StorageService.savePasswords LocalStorageService.getInstance].
      rewrite savePasswords_refused by exact Hw.
      eexists _, _. split; [reflexivity|]. repeat split; reflexivity.
    + intros p Hfind. split.
      * rewrite (updatePassword_any _ _ _ _ _ Hfind).
        cbn [StorageService.savePasswords LocalStorageService.getInstance].
        rewrite savePasswords_refused by exact Hw.
        eexists _, _. split; [reflexivity|].
        split; [apply update_runs|]. split; [reflexivity|].
        split; [|split; reflexivity].
        cbn [with_report atFlushOfUpdate with_passwords passwords].
        eapply assign_first_In. exact Hfind.
      * rewrite (deletePassword_any _ _ _ _ Hfind).
        cbn [StorageService.savePasswords LocalStorageService.getInstance].
        rewrite savePasswords_refused by exact Hw.
        eexists. split; [reflexivity|]. split; [reflexivity|].
        split; [|split; reflexivity].
        cbn [with_report atFlushOfDelete with_passwords passwords].
        eapply find_filter_gone. exact Hfind.
  - intros svc e st2. split; [|split].
    + intros Hflush. now rewrite addPassword_any, Hflush.
    + intros p Hfind Hflush.
      now rewrite (updatePassword_any _ _ _ _ _ Hfind), Hflush.
    + intros p Hfind Hflush.
      now rewrite (deletePassword_any _ _ _ _ Hfind), Hflush.
Qed.

(** C3 at work: the medium refuses the write; the record is added to the
    collection in memory and nothing reaches the durable copy. *)
Lemma C3_localStorage_failure_witness :
  writable (localStorage (running 4 fullStorage Rejected [stored])) = false
  /\ firstWithId (js "1000")
       (passwords (running 4 fullStorage Rejected [stored])) = Some stored
  /\ (exists entry st',
        PasswordManager.addPassword LocalStorageService.getInstance gitlab
            (running 4 fullStorage Rejected [stored])
          = (Return entry, st')
        /\ passwords st' = [stored; entry]
        /\ secure_pass_passwords (localStorage st') = None)
  /\ (exists st',
        PasswordManager.deletePassword LocalStorageService.getInstance
            (js "1000") (running 4 fullStorage Rejected [stored])
          = (Return true, st')
        /\ passwords st' = [])
  /\ exists st',
       PasswordManager.deletePassword throwingBackend (js "1000")
           (running 4 fullStorage Rejected [stored])
         = (Throw BackendError, st')
       /\ passwords st' = [].
Proof.
  assert (Hw : writable (localStorage (running 4 fullStorage Rejected [stored]))
               = false) by reflexivity.
  assert (Hfind : firstWithId (js "1000")
                    (passwords (running 4 fullStorage Rejected [stored]))
                  = Some stored) by (vm_compute; reflexivity).
  split; [exact Hw|]. split; [exact Hfind|].
  destruct (C3_localStorage_failure gitlab (js "1000") Partial.empty
              (running 4 fullStorage Rejected [stored]))
    as (Hlocal & Hany & _).
  destruct (Hlocal Hw) as [(entry & st' & Hrun & Hmem & _ & Hdurable & _) Hfound].
  destruct (Hfound stored Hfind) as [_ (st'' & Hdel & Hmem' & _)].
  split; [|split].
  - exists entry, st'. split; [exact Hrun|]. split; [exact Hmem|].
    rewrite Hdurable. reflexivity.
  - exists st''. split; [exact Hdel|]. rewrite Hmem'. vm_compute. reflexivity.
  - destruct (Hany throwingBackend BackendError
                (atFlushOfDelete (running 4 fullStorage Rejected [stored])
                                 (js "1000")))
      as (_ & _ & Hthrow).
    eexists. split; [apply (Hthrow stored Hfind); reflexivity|].
    vm_compute. reflexivity.
Defined.

(** Decimal rendering tells integers apart. *)
Lemma js_inj s t : js s = js t -> s = t.
Proof.
  unfold js. intros H.
  rewrite <- (string_of_list_ascii_of_string s),
          <- (string_of_list_ascii_of_string t).
  f_equal. revert H.
  generalize (list_ascii_of_string s) (list_ascii_of_string t).
  induction l as [|a l IH]; intros [|b l']; simpl; try discriminate;
    [reflexivity|].
  intros H. injection H as Hab Hl. f_equal; [|auto].
  apply N2Z.inj in Hab.
  rewrite <- (ascii_N_embedding a), <- (ascii_N_embedding b). congruence.
Qed.

Lemma Number_toString_inj m n : Number_toString m = Number_toString n -> m = n.
Proof.
  unfold Number_toString. intros H. apply js_inj in H.
  apply (f_equal NilEmpty.int_of_string) in H. rewrite !NilEmpty.isi in H.
  injection H as H. apply (f_equal Z.of_int) in H.
  now rewrite !DecimalZ.of_to in H.
Qed.

(** The id [addPassword] assigns is the decimal rendering of the first
    clock reading of the call: two additions get different ids if and only
    if these readings differ. *)
Lemma addPassword_id svc data st entry st' :
  PasswordManager.addPassword svc data st = (Return entry, st') ->
  id entry = Number_toString (clock st (ticks st)).
Proof.
  destruct (addPassword_flush svc data st) as (e & st1 & Hctor & ->).
  rewrite constructor_fresh in Hctor. injection Hctor as <- _.
  destruct (StorageService.savePasswords svc _ _) as [[[]|err] st2];
    intros H; [|discriminate].
  injection H as <- _. reflexivity.
Qed.

Lemma addPassword_ids svc d1 d2 st a st1 b st2 :
  PasswordManager.addPassword svc d1 st = (Return a, st1) ->
  PasswordManager.addPassword svc d2 st1 = (Return b, st2) ->
  (id a = id b <-> clock st (ticks st) = clock st1 (ticks st1)).
Proof.
  intros Ha Hb. rewrite (addPassword_id _ _ _ _ _ Ha), (addPassword_id _ _ _ _ _ Hb).
  split; [apply Number_toString_inj | congruence].
Qed.

(** C10 (the code departs from the claim).  Two records added to the same
    store within one millisecond: [Date.now()] reads 1700000000000 both
    times, and both records, different in content, are stored with the id
    "1700000000000". *)
Theorem C10_same_millisecond_same_id :
  exists a st1 b st2,
    PasswordManager.addPassword LocalStorageService.getInstance github
        sameMillisecond = (Return a, st1)
    /\ PasswordManager.addPassword LocalStorageService.getInstance gitlab st1
         = (Return b, st2)
    /\ passwords st2 = [a; b]
    /\ website a = js "GitHub"
    /\ website b = js "GitLab"
    /\ id a = js "1700000000000"
    /\ id b = id a.
Proof.
  eexists _, _, _, _.
  split; [vm_compute; reflexivity|]. split; [vm_compute; reflexivity|].
  repeat split; vm_compute; reflexivity.
Qed.

(* ===================================================================== *)
(** ** Further properties of the generator *)
(* ===================================================================== *)

Lemma class_cover c : isLower c || isUpper c || isDigit c || isOther c = true.
Proof. unfold isOther. destruct (isLower c || isUpper c || isDigit c); reflexivity. Qed.

Lemma test_cons (class : Z -> bool) c s :
  test class (c :: s) = class c || test class s.
Proof. reflexivity. Qed.

Lemma some_class_tested c s :
  test isLower (c :: s) || test isUpper (c :: s) || test isDigit (c :: s)
  || test isOther (c :: s) = true.
Proof.
  rewrite !test_cons. pose proof (class_cover c) as H.
  destruct (isLower c), (isUpper c), (isDigit c), (isOther c);
    try discriminate H; simpl; rewrite ?orb_true_r; reflexivity.
Qed.

(** X1.  The strength of a password lies between 0 and 100 and is a
    multiple of 5; it is 0 for the empty password only, every other
    password scoring at least 15. *)
Theorem X1_calculateStrength_range pw :
  0 <= calculateStrength pw <= 100
  /\ calculateStrength pw mod 5 = 0
  /\ (calculateStrength pw = 0 <-> pw = [])
  /\ (calculateStrength pw = 0 \/ 15 <= calculateStrength pw).
Proof.
  destruct pw as [|c pw'].
  - repeat split; try reflexivity; try (vm_compute; discriminate).
    left. reflexivity.
  - pose proof (some_class_tested c pw') as Hclass.
    set (pw := c :: pw') in *.
    assert (H : 15 <= calculateStrength pw <= 100
                /\ calculateStrength pw mod 5 = 0).
    { unfold calculateStrength.
      replace (truthy pw) with true by reflexivity. cbv zeta. simpl negb.
      cbv iota.
      destruct (8 <=? strlen pw), (12 <=? strlen pw), (16 <=? strlen pw),
        (test isLower pw), (test isUpper pw), (test isDigit pw),
        (test isOther pw),
        (Z_gtb (Set_size pw) (b64_mul (of_Z (strlen pw)) lit_0_7));
        try discriminate Hclass; vm_compute; repeat split; congruence. }
    destruct H as [[Hlo Hhi] Hmod].
    split; [lia|]. split; [exact Hmod|]. split; [|right; exact Hlo].
    split; [lia | discriminate].
Qed.
(** X2.  A password classified Strong has at least 8 characters and
    characters of at least two of the four classes (lowercase, uppercase,
    digit, other). *)
Theorem X2_strong_needs_length_and_variety pw :
  getStrengthLevel (calculateStrength pw) = Strong ->
  8 <= strlen pw
  /\ 2 <= Z.b2z (test isLower pw) + Z.b2z (test isUpper pw)
          + Z.b2z (test isDigit pw) + Z.b2z (test isOther pw).
Proof.
  destruct pw as [|c pw']; [vm_compute; discriminate|].
  set (pw := c :: pw') in *.
  unfold calculateStrength.
  replace (truthy pw) with true by reflexivity. cbv zeta. simpl negb. cbv iota.
  destruct (Z.leb_spec 8 (strlen pw)), (Z.leb_spec 12 (strlen pw)),
    (Z.leb_spec 16 (strlen pw)); try lia;
  destruct (test isLower pw), (test isUpper pw), (test isDigit pw),
    (test isOther pw),
    (Z_gtb (Set_size pw) (b64_mul (of_Z (strlen pw)) lit_0_7));
    vm_compute; intros Hlevel; try discriminate Hlevel;
    (split; [assumption | discriminate]).
Qed.

(** X2 at work: "Abcdefg1!" is Strong and has nine characters. *)
Lemma X2_strong_needs_length_and_variety_witness :
  getStrengthLevel (calculateStrength strongPassword) = Strong
  /\ 8 <= strlen strongPassword.
Proof.
  assert (H : getStrengthLevel (calculateStrength strongPassword) = Strong)
    by (vm_compute; reflexivity).
  split; [exact H|].
  exact (proj1 (X2_strong_needs_length_and_variety strongPassword H)).
Defined.

(** X3.  The colour of the strength bar follows the level: red for Weak
    (below 30), yellow for Fair (30 to 59), blue for Good (60 to 79), green
    for Strong (80 and more); two scores get the same colour exactly when
    they get the same level. *)
Theorem X3_level_and_color s s' :
  getStrengthColor s =
    match getStrengthLevel s with
    | Weak => js "bg-red-500"
    | Fair => js "bg-yellow-500"
    | Good => js "bg-blue-500"
    | Strong => js "bg-green-500"
    end
  /\ (getStrengthLevel s = Weak <-> s < 30)
  /\ (getStrengthLevel s = Fair <-> 30 <= s < 60)
  /\ (getStrengthLevel s = Good <-> 60 <= s < 80)
  /\ (getStrengthLevel s = Strong <-> 80 <= s)
  /\ (getStrengthColor s = getStrengthColor s'
      <-> getStrengthLevel s = getStrengthLevel s').
Proof.
  unfold getStrengthColor, getStrengthLevel.
  destruct (Z.ltb_spec s 30), (Z.ltb_spec s 60), (Z.ltb_spec s 80); try lia;
    destruct (Z.ltb_spec s' 30), (Z.ltb_spec s' 60), (Z.ltb_spec s' 80);
    try lia;
    repeat split; intros; try lia; try discriminate; try reflexivity.
Qed.

Lemma charAt_pick charset v :
  truthy charset = true -> 0 <= v ->
  charAt charset (Z.rem v (strlen charset)) = [pick charset v]
  /\ In (pick charset v) charset.
Proof.
  intros Hne Hv. destruct (charAt_member charset v Hne Hv) as (c & Hc & Hin).
  unfold charAt in Hc. unfold pick.
  destruct (nth_error charset (Z.to_nat (Z.rem v (strlen charset)))) as [d|] eqn:Hnth.
  - injection Hc as ->. rewrite (nth_error_nth _ _ _ Hnth).
    split; [unfold charAt; rewrite Hnth; reflexivity | exact Hin].
  - apply (f_equal (@List.length Z)) in Hc. discriminate Hc.
Qed.

Lemma generate_loop_closed charset array :
  truthy charset = true -> Forall (fun v => 0 <= v) array ->
  forall acc,
    generate_loop charset array acc = acc ++ map (pick charset) array.
Proof.
  intros Hne Harr. induction Harr as [|v rest Hv _ IH]; intros acc; simpl.
  - now rewrite app_nil_r.
  - rewrite (proj1 (charAt_pick charset v Hne Hv)), IH, <- app_assoc.
    reflexivity.
Qed.

(** X4.  For a length between 0 and 16384, [generatePassword] returns the
    string whose i-th character is the one the i-th fresh random word,
    truncated to 32 bits and reduced modulo the size of the alphabet,
    selects; it draws exactly [length] words and changes nothing else. *)
Theorem X4_generatePassword_closed_form options st :
  0 <= Options.length options <= 16384 ->
  generatePassword options st =
    (Return
       (map (fun i => pick (getCharacterSet options)
                           (entropy st (drawn st + i)%nat mod 2 ^ 32))
            (seq 0 (Z.to_nat (Options.length options)))),
     mkState (clock st) (ticks st) (entropy st)
             (drawn st + Z.to_nat (Options.length options))%nat
             (localStorage st) (console st) (server st) (passwords st)).
Proof.
  intros [Hlo Hhi]. unfold generatePassword, bind, new_Uint32Array.
  destruct (Z.ltb_spec (Options.length options) 0); [lia|].
  unfold ret at 1. unfold crypto_getRandomValues. rewrite repeat_length.
  destruct (Z.ltb_spec 65536 (4 * Z.of_nat (Z.to_nat (Options.length options))));
    [lia|].
  unfold ret.
  rewrite (generate_loop_closed _ _ (getCharacterSet_truthy options)
             (random_words_nonneg _ _)).
  rewrite map_map. reflexivity.
Qed.

(** X4 at work: the words 0, 1, ..., 15 select the first sixteen letters. *)
Lemma X4_generatePassword_closed_form_witness :
  0 <= Options.length allCategories16 <= 16384
  /\ fst (generatePassword allCategories16 (running 0 emptyStorage Rejected []))
     = Return (js "abcdefghijklmnop").
Proof.
  assert (H : 0 <= Options.length allCategories16 <= 16384) by (simpl; lia).
  split; [exact H|].
  rewrite (X4_generatePassword_closed_form allCategories16 _ H).
  vm_compute. reflexivity.
Defined.

(** X5.  For a negative length or a length above 16384, [generatePassword]
    throws, a [RangeError] when the length is negative, and leaves the
    runtime as it was: no random word is drawn. *)
Theorem X5_generatePassword_refuses options st :
  Options.length options < 0 \/ 16384 < Options.length options ->
  exists e,
    generatePassword options st = (Throw e, st)
    /\ (Options.length options < 0 -> e = RangeError).
Proof.
  intros Hn. unfold generatePassword, bind, new_Uint32Array.
  destruct (Z.ltb_spec (Options.length options) 0) as [Hneg|Hpos].
  - eexists. split; reflexivity.
  - unfold ret at 1. unfold crypto_getRandomValues. rewrite repeat_length.
    destruct (Z.ltb_spec 65536 (4 * Z.of_nat (Z.to_nat (Options.length options))));
      [|lia].
    eexists. split; [reflexivity | lia].
Qed.

(** X5 at work: the length -1. *)
Lemma X5_generatePassword_refuses_witness :
  (Options.length (Options.make (-1) true true true true) < 0
   \/ 16384 < Options.length (Options.make (-1) true true true true))
  /\ exists e,
       generatePassword (Options.make (-1) true true true true)
                        (running 0 emptyStorage Rejected [])
         = (Throw e, running 0 emptyStorage Rejected []).
Proof.
  assert (H : Options.length (Options.make (-1) true true true true) < 0
              \/ 16384 < Options.length (Options.make (-1) true true true true))
    by (left; simpl; lia).
  split; [exact H|].
  destruct (X5_generatePassword_refuses _ (running 0 emptyStorage Rejected []) H)
    as (e & Hrun & _).
  exists e. exact Hrun.
Defined.

Lemma In_range lo n c :
  In c (map Z.of_nat (seq lo n)) <-> Z.of_nat lo <= c < Z.of_nat (lo + n).
Proof.
  rewrite in_map_iff. split.
  - intros (k & <- & Hk). apply in_seq in Hk. lia.
  - intros Hc. exists (Z.to_nat c). split; [lia|]. apply in_seq. lia.
Qed.

Lemma In_lowercase c : In c (js "abcdefghijklmnopqrstuvwxyz") <-> isLower c = true.
Proof.
  change (js "abcdefghijklmnopqrstuvwxyz") with (map Z.of_nat (seq 97 26)).
  rewrite In_range. unfold isLower. rewrite andb_true_iff, !Z.leb_le. lia.
Qed.

Lemma In_uppercase c : In c (js "ABCDEFGHIJKLMNOPQRSTUVWXYZ") <-> isUpper c = true.
Proof.
  change (js "ABCDEFGHIJKLMNOPQRSTUVWXYZ") with (map Z.of_nat (seq 65 26)).
  rewrite In_range. unfold isUpper. rewrite andb_true_iff, !Z.leb_le. lia.
Qed.

Lemma In_digits c : In c (js "0123456789") <-> isDigit c = true.
Proof.
  change (js "0123456789") with (map Z.of_nat (seq 48 10)).
  rewrite In_range. unfold isDigit. rewrite andb_true_iff, !Z.leb_le. lia.
Qed.

Lemma getCharacterSet_parts options :
  getCharacterSet options =
    let raw :=
      (if Options.includeLowercase options
       then js "abcdefghijklmnopqrstuvwxyz" else [])
      ++ (if Options.includeUppercase options
          then js "ABCDEFGHIJKLMNOPQRSTUVWXYZ" else [])
      ++ (if Options.includeNumbers options then js "0123456789" else [])
      ++ (if Options.includeSymbols options then symbols else []) in
    if truthy raw then raw else js "abcdefghijklmnopqrstuvwxyz".
Proof. destruct options as [n [] [] [] []]; reflexivity. Qed.

(** Which characters an alphabet holds. *)
Lemma getCharacterSet_member options c :
  In c (getCharacterSet options) <->
  (isLower c = true
   /\ (Options.includeLowercase options = true
       \/ (Options.includeUppercase options = false
           /\ Options.includeNumbers options = false
           /\ Options.includeSymbols options = false)))
  \/ (isUpper c = true /\ Options.includeUppercase options = true)
  \/ (isDigit c = true /\ Options.includeNumbers options = true)
  \/ (In c symbols /\ Options.includeSymbols options = true).
Proof.
  rewrite getCharacterSet_parts.
  destruct options as [n [] [] [] []];
    cbn [Options.includeLowercase Options.includeUppercase
         Options.includeNumbers Options.includeSymbols]; cbv zeta;
    match goal with
    | |- context [truthy ?x] =>
        first [change (truthy x) with true | change (truthy x) with false]
    end; cbv iota;
    rewrite ?in_app_iff, ?In_lowercase, ?In_uppercase, ?In_digits;
    simpl (In c []); intuition (try discriminate).
Qed.

(** X6.  A character belongs to the alphabet of a policy exactly when its
    category is enabled, the lowercase letters also when no category is;
    no alphabet holds a character twice, and every alphabet has between 10
    and 88 characters. *)
Theorem X6_getCharacterSet_categories options :
  (forall c,
     In c (getCharacterSet options) <->
     (isLower c = true
      /\ (Options.includeLowercase options = true
          \/ (Options.includeUppercase options = false
              /\ Options.includeNumbers options = false
              /\ Options.includeSymbols options = false)))
     \/ (isUpper c = true /\ Options.includeUppercase options = true)
     \/ (isDigit c = true /\ Options.includeNumbers options = true)
     \/ (In c symbols /\ Options.includeSymbols options = true))
  /\ NoDup (getCharacterSet options)
  /\ 10 <= strlen (getCharacterSet options) <= 88.
Proof.
  split; [intros c; apply getCharacterSet_member|].
  destruct options as [n [] [] [] []]; split;
    try (apply (bool_decide_unpack _); vm_compute; reflexivity);
    vm_compute; split; discriminate.
Qed.

Lemma test_false (class : Z -> bool) s :
  Forall (fun c => class c = false) s -> test class s = false.
Proof.
  induction 1 as [|c s Hc _ IH]; [reflexivity|].
  unfold test in *. simpl. now rewrite Hc, IH.
Qed.

Lemma calculateStrength_at_least_35 pw :
  8 <= strlen pw -> 35 <= calculateStrength pw.
Proof.
  intros Hlen. destruct pw as [|c pw']; [unfold strlen in Hlen; simpl in Hlen; lia|].
  pose proof (some_class_tested c pw') as Hclass.
  set (pw := c :: pw') in *.
  unfold calculateStrength.
  replace (truthy pw) with true by reflexivity. cbv zeta. simpl negb. cbv iota.
  destruct (Z.leb_spec 8 (strlen pw)); [|lia].
  destruct (12 <=? strlen pw), (16 <=? strlen pw),
    (test isLower pw), (test isUpper pw), (test isDigit pw),
    (test isOther pw),
    (Z_gtb (Set_size pw) (b64_mul (of_Z (strlen pw)) lit_0_7));
    try discriminate Hclass; vm_compute; discriminate.
Qed.

(** A character of an alphabet belongs to no disabled category. *)
Lemma alphabet_excludes options c :
  In c (getCharacterSet options) ->
  (Options.includeUppercase options = false -> isUpper c = false)
  /\ (Options.includeNumbers options = false -> isDigit c = false)
  /\ (Options.includeSymbols options = false -> isOther c = false)
  /\ (Options.includeLowercase options = false ->
      Options.includeUppercase options || Options.includeNumbers options
      || Options.includeSymbols options = true ->
      isLower c = false).
Proof.
  intros Hc.
  assert (Hb : forallb
            (fun c =>
               (Options.includeUppercase options || negb (isUpper c))
               && (Options.includeNumbers options || negb (isDigit c))
               && (Options.includeSymbols options || negb (isOther c))
               && (Options.includeLowercase options
                   || negb (Options.includeUppercase options
                            || Options.includeNumbers options
                            || Options.includeSymbols options)
                   || negb (isLower c)))
            (getCharacterSet options) = true)
    by (destruct options as [n [] [] [] []]; vm_compute; reflexivity).
  rewrite forallb_forall in Hb. specialize (Hb c Hc).
  apply andb_true_iff in Hb as [Hb H4]. apply andb_true_iff in Hb as [Hb H3].
  apply andb_true_iff in Hb as [H1 H2].
  repeat split.
  - intros H. rewrite H in H1. now apply negb_true_iff in H1.
  - intros H. rewrite H in H2. now apply negb_true_iff in H2.
  - intros H. rewrite H in H3. now apply negb_true_iff in H3.
  - intros H H'. rewrite H, H' in H4. now apply negb_true_iff in H4.
Qed.

(** X7.  For a length between 8 and 16384, whatever the policy and the
    random words, the generated password has that length, scores at least
    35 and is never classified Weak.  It holds no uppercase letter, digit
    or other character whose category is disabled, and no lowercase letter
    when lowercase is disabled and another category is enabled; with no
    category enabled it consists of lowercase letters only. *)
Theorem X7_generated_password_quality options st :
  8 <= Options.length options <= 16384 ->
  exists pw st',
    generatePassword options st = (Return pw, st')
    /\ strlen pw = Options.length options
    /\ 35 <= calculateStrength pw
    /\ getStrengthLevel (calculateStrength pw) <> Weak
    /\ (Options.includeUppercase options = false -> test isUpper pw = false)
    /\ (Options.includeNumbers options = false -> test isDigit pw = false)
    /\ (Options.includeSymbols options = false -> test isOther pw = false)
    /\ (Options.includeLowercase options = false ->
        Options.includeUppercase options || Options.includeNumbers options
        || Options.includeSymbols options = true ->
        test isLower pw = false)
    /\ (Options.includeLowercase options || Options.includeUppercase options
        || Options.includeNumbers options || Options.includeSymbols options
        = false ->
        Forall (fun c => isLower c = true) pw).
Proof.
  intros Hn.
  destruct (generatePassword_spec options st) as (pw & st' & Hrun & Hlen & Hall);
    [lia|].
  exists pw, st'. split; [exact Hrun|]. split; [exact Hlen|].
  assert (Hscore : 35 <= calculateStrength pw)
    by (apply calculateStrength_at_least_35; lia).
  split; [exact Hscore|]. split.
  { unfold getStrengthLevel. destruct (Z.ltb_spec (calculateStrength pw) 30);
      [lia|]. destruct (calculateStrength pw <? 60), (calculateStrength pw <? 80);
      discriminate. }
  assert (Hex : forall c, In c pw ->
            (Options.includeUppercase options = false -> isUpper c = false)
            /\ (Options.includeNumbers options = false -> isDigit c = false)
            /\ (Options.includeSymbols options = false -> isOther c = false)
            /\ (Options.includeLowercase options = false ->
                Options.includeUppercase options || Options.includeNumbers options
                || Options.includeSymbols options = true ->
                isLower c = false)).
  { intros c Hc. apply alphabet_excludes.
    rewrite List.Forall_forall in Hall. auto. }
  split; [|split; [|split; [|split]]];
    try (intros; apply test_false, List.Forall_forall; intros c Hc;
         destruct (Hex c Hc) as (HU & HD & HS & HL); now auto).
  intros Hnone. apply List.Forall_forall. intros c Hc.
  rewrite List.Forall_forall in Hall. specialize (Hall c Hc).
  apply getCharacterSet_member in Hall.
  destruct (Options.includeLowercase options),
    (Options.includeUppercase options), (Options.includeNumbers options),
    (Options.includeSymbols options); try discriminate Hnone.
  destruct Hall as [[Hc' _]|[[_ Hf]|[[_ Hf]|[_ Hf]]]];
    [exact Hc' | discriminate Hf | discriminate Hf | discriminate Hf].
Qed.

(** X7 at work: the policy of the generator dialog. *)
Lemma X7_generated_password_quality_witness :
  8 <= Options.length allCategories16 <= 16384
  /\ exists pw,
       fst (generatePassword allCategories16
              (running 0 emptyStorage Rejected [])) = Return pw
       /\ getStrengthLevel (calculateStrength pw) <> Weak.
Proof.
  assert (H : 8 <= Options.length allCategories16 <= 16384) by (simpl; lia).
  split; [exact H|].
  destruct (X7_generated_password_quality allCategories16
              (running 0 emptyStorage Rejected []) H)
    as (pw & st' & Hrun & _ & _ & Hlevel & _).
  exists pw. rewrite Hrun. split; [reflexivity | exact Hlevel].
Defined.

(* ===================================================================== *)
(** ** Further properties of the credential record *)
(* ===================================================================== *)

(** X8.  Two updates in a row leave the record as one update with the two
    partials merged, the later value winning, would; the id and [createdAt]
    are still those of the original and [updatedAt] is the reading taken by
    the second update. *)
Theorem X8_update_twice this d1 d2 st :
  exists t1 st1,
    Password.update this d1 st = (Return t1, st1)
    /\ Password.update t1 d2 st1
       = Password.update this (mergePartial d1 d2) st1
    /\ exists t2 st2,
         Password.update t1 d2 st1 = (Return t2, st2)
         /\ id t2 = id this
         /\ createdAt t2 = createdAt this
         /\ updatedAt t2 = clock st (S (ticks st))
         /\ ticks st2 = S (S (ticks st)).
Proof.
  eexists _, _. split; [apply update_runs|]. split.
  - rewrite !update_runs. destruct d1 as [[?|] [?|] [?|] [?|]];
      destruct d2 as [[?|] [?|] [?|] [?|]]; reflexivity.
  - eexists _, _. split; [apply update_runs|]. repeat split; reflexivity.
Qed.

Lemma Number_toString_truthy n : truthy (Number_toString n) = true.
Proof.
  destruct (Number_toString n) as [|c s] eqn:Hn; [|reflexivity].
  exfalso. pose proof Hn as Hd. unfold Number_toString in Hd.
  change (@nil Z) with (js EmptyString) in Hd. apply js_inj in Hd.
  apply (f_equal NilEmpty.int_of_string) in Hd. rewrite NilEmpty.isi in Hd.
  injection Hd as Hd. apply (f_equal Z.of_int) in Hd.
  rewrite DecimalZ.of_to in Hd. subst n. vm_compute in Hn. discriminate Hn.
Qed.

(** X9.  Every record made by the constructor or by [fromJSON] has a
    non-empty id: the id it was given when that is not empty, the decimal
    rendering of the clock reading otherwise; an empty id is treated as a
    missing one. *)
Theorem X9_constructed_id w u p n i data st :
  (exists e st',
     Password.constructor w u p n i st = (Return e, st')
     /\ truthy (id e) = true
     /\ id e = match i with
               | Some j => if truthy j then j
                           else Number_toString (clock st (ticks st))
               | None => Number_toString (clock st (ticks st))
               end
     /\ Password.constructor w u p n (Some []) st
        = Password.constructor w u p n None st)
  /\ (exists e st',
        Password.fromJSON data st = (Return e, st')
        /\ truthy (id e) = true
        /\ id e = (if truthy (id data) then id data
                   else Number_toString (clock st (ticks st)))).
Proof.
  split.
  - destruct i as [j|]; [destruct (truthy j) eqn:Hj|].
    + rewrite (constructor_given _ _ _ _ _ _ Hj). eexists _, _.
      split; [reflexivity|]. simpl. repeat split. exact Hj.
    + unfold Password.constructor. rewrite Hj.
      eexists _, _. split; [reflexivity|]. simpl. repeat split.
      apply Number_toString_truthy.
    + rewrite constructor_fresh. eexists _, _. split; [reflexivity|].
      simpl. repeat split. apply Number_toString_truthy.
  - unfold Password.fromJSON, bind. destruct (truthy (id data)) eqn:Hd.
    + rewrite (constructor_given _ _ _ _ _ _ Hd). eexists _, _.
      split; [reflexivity|]. simpl. split; [exact Hd | reflexivity].
    + unfold Password.constructor. rewrite Hd.
      eexists _, _. split; [reflexivity|]. simpl.
      split; [apply Number_toString_truthy | reflexivity].
Qed.

(* ===================================================================== *)
(** ** Further properties of the storage service *)
(* ===================================================================== *)

Lemma later_0 st : later st 0 = st.
Proof. destruct st. unfold later. simpl. now rewrite Nat.add_0_r. Qed.

Lemma later_later st a b : later (later st a) b = later st (a + b).
Proof. unfold later. simpl. now rewrite Nat.add_assoc. Qed.

(** What [fromJSON] computes: two readings of the clock when the row has
    an id, three when it has none. *)
Lemma fromJSON_runs data st :
  Password.fromJSON data st =
    if truthy (id data)
    then (Return (mkEntry (id data) (website data) (username data)
                          (password data) (notes data)
                          (clock st (ticks st)) (updatedAt data)),
          later st 2)
    else (Return (mkEntry (Number_toString (clock st (ticks st)))
                          (website data) (username data) (password data)
                          (notes data) (clock st (S (ticks st)))
                          (updatedAt data)),
          later st 3).
Proof.
  unfold Password.fromJSON, bind, later. destruct (truthy (id data)) eqn:Hd.
  - rewrite (constructor_given _ _ _ _ _ _ Hd). simpl.
    now rewrite !Nat.add_succ_r, Nat.add_0_r.
  - unfold Password.constructor. rewrite Hd. simpl.
    now rewrite !Nat.add_succ_r, Nat.add_0_r.
Qed.

(** Reading rows back never fails; the records keep everything but
    [createdAt], and their id if the row has one. *)
Lemma mapM_fromJSON_runs rows :
  forall st,
  exists l n,
    mapM Password.fromJSON rows st = (Return l, later st n)
    /\ (2 * List.length rows <= n <= 3 * List.length rows)%nat
    /\ map website l = map website rows
    /\ map username l = map username rows
    /\ map password l = map password rows
    /\ map notes l = map notes rows
    /\ map updatedAt l = map updatedAt rows
    /\ Forall (fun e => truthy (id e) = true) l
    /\ (Forall (fun r => truthy (id r) = true) rows ->
        map id l = map id rows /\ n = (2 * List.length rows)%nat).
Proof.
  induction rows as [|r rows IH]; intros st.
  - exists [], 0%nat. rewrite later_0. simpl. repeat split; auto.
  - simpl mapM. unfold bind at 1. rewrite fromJSON_runs.
    destruct (truthy (id r)) eqn:Hr.
    + destruct (IH (later st 2)) as (l & n & Hrun & Hn & Hw & Hu & Hp & Hno & Hup & Hid & Hids).
      unfold bind. rewrite Hrun. unfold ret. rewrite later_later.
      eexists _, _. split; [reflexivity|]. simpl.
      rewrite Hw, Hu, Hp, Hno, Hup.
      split; [lia|]. repeat (split; [reflexivity|]).
      split; [constructor; [exact Hr | exact Hid]|].
      intros Hall. inversion Hall as [|? ? _ Hrest]; subst.
      destruct (Hids Hrest) as [-> ->]. split; [reflexivity | lia].
    + destruct (IH (later st 3)) as (l & n & Hrun & Hn & Hw & Hu & Hp & Hno & Hup & Hid & Hids).
      unfold bind. rewrite Hrun. unfold ret. rewrite later_later.
      eexists _, _. split; [reflexivity|]. simpl.
      rewrite Hw, Hu, Hp, Hno, Hup.
      split; [lia|]. repeat (split; [reflexivity|]).
      split; [constructor; [apply Number_toString_truthy | exact Hid]|].
      intros Hall. inversion Hall as [|? ? Hr' _]; subst. congruence.
Qed.

Lemma savePasswords_runs l st :
  LocalStorageService.savePasswords l st = (Return tt, flushed st l).
Proof.
  unfold LocalStorageService.savePasswords, try_catch, localStorage_setItem,
    flushed.
  destruct (writable (localStorage st)); reflexivity.
Qed.

Lemma map_content l l' :
  map id l = map id l' -> map website l = map website l' ->
  map username l = map username l' -> map password l = map password l' ->
  map notes l = map notes l' -> map updatedAt l = map updatedAt l' ->
  map content l = map content l'.
Proof.
  revert l'. induction l as [|e l IH]; intros [|e' l']; simpl;
    try discriminate; [reflexivity|].
  intros H1 H2 H3 H4 H5 H6.
  injection H1 as ? ?. injection H2 as ? ?. injection H3 as ? ?.
  injection H4 as ? ?. injection H5 as ? ?. injection H6 as ? ?.
  unfold content at 1 3. f_equal; [congruence | auto].
Qed.

Lemma toJSON_fields e : Password.toJSON e = e.
Proof. now destruct e. Qed.

Lemma map_toJSON l : map Password.toJSON l = l.
Proof.
  induction l as [|e l IH]; [reflexivity|]. simpl. now rewrite toJSON_fields, IH.
Qed.

(** X10.  On a medium that takes the write, saving a collection whose
    records have ids and loading it again returns as many records, in the
    same order, with the same id, website, username, password, notes and
    [updatedAt]; the durable copy is the serialised collection and loading
    reads the clock twice per record. *)
Theorem X10_save_then_load l st :
  writable (localStorage st) = true ->
  Forall (fun e => truthy (id e) = true) l ->
  exists l',
    bind (LocalStorageService.savePasswords l)
         (fun _ => LocalStorageService.getPasswords) st
      = (Return l',
         later (with_item st (Some (JSONArray (map Password.toJSON l))))
               (2 * List.length l))
    /\ map content l' = map content l
    /\ List.length l' = List.length l.
Proof.
  intros Hw Hids. unfold bind. rewrite savePasswords_runs.
  unfold flushed. rewrite Hw.
  unfold LocalStorageService.getPasswords, try_catch, bind,
    localStorage_getItem, JSON_parse, ret.
  cbn [with_item localStorage secure_pass_passwords].
  rewrite map_toJSON.
  destruct (mapM_fromJSON_runs l (with_item st (Some (JSONArray l))))
    as (l' & n & Hrun & _ & Hw' & Hu & Hp & Hno & Hup & _ & Hid).
  destruct (Hid Hids) as [Hid' ->]. rewrite Hrun.
  exists l'. split; [reflexivity|]. split.
  - now apply map_content.
  - apply (f_equal (@List.length _)) in Hid'.
    now rewrite !List.length_map in Hid'.
Qed.

(** X10 at work: one record saved and loaded. *)
Lemma X10_save_then_load_witness :
  writable (localStorage (running 4 emptyStorage Rejected [])) = true
  /\ Forall (fun e => truthy (id e) = true) [stored]
  /\ exists l',
       fst (bind (LocalStorageService.savePasswords [stored])
                 (fun _ => LocalStorageService.getPasswords)
                 (running 4 emptyStorage Rejected [])) = Return l'
       /\ map content l' = [content stored].
Proof.
  assert (Hw : writable (localStorage (running 4 emptyStorage Rejected []))
               = true) by reflexivity.
  assert (Hids : Forall (fun e => truthy (id e) = true) [stored])
    by (repeat constructor).
  split; [exact Hw|]. split; [exact Hids|].
  destruct (X10_save_then_load [stored] _ Hw Hids) as (l' & Hrun & Hc & _).
  exists l'. rewrite Hrun. split; [reflexivity | exact Hc].
Defined.

(** X11.  [getPasswords] never throws and changes neither the collection
    in memory nor the medium.  With no stored text, or an empty one, it
    returns no record and reports nothing; with a text that does not parse
    it returns no record and reports "loading passwords"; with an array it
    returns one record per row, with the row's website, username, password,
    notes and [updatedAt] and a non-empty id. *)
Theorem X11_getPasswords_never_throws st :
  exists l st',
    LocalStorageService.getPasswords st = (Return l, st')
    /\ passwords st' = passwords st
    /\ localStorage st' = localStorage st
    /\ match secure_pass_passwords (localStorage st) with
       | None | Some EmptyText => l = [] /\ st' = st
       | Some Malformed =>
           l = [] /\ st' = with_report st (js "loading passwords")
       | Some (JSONArray rows) =>
           List.length l = List.length rows
           /\ map website l = map website rows
           /\ map username l = map username rows
           /\ map password l = map password rows
           /\ map notes l = map notes rows
           /\ map updatedAt l = map updatedAt rows
           /\ Forall (fun e => truthy (id e) = true) l
           /\ console st' = console st
       end.
Proof.
  unfold LocalStorageService.getPasswords, try_catch, bind,
    localStorage_getItem, JSON_parse.
  destruct (secure_pass_passwords (localStorage st)) as [[|rows|]|].
  - eexists _, _. repeat split; reflexivity.
  - destruct (mapM_fromJSON_runs rows st)
      as (l & n & Hrun & _ & Hw & Hu & Hp & Hno & Hup & Hid & _).
    unfold ret at 1. rewrite Hrun. eexists _, _. split; [reflexivity|].
    repeat split; try assumption; try reflexivity.
    apply (f_equal (@List.length _)) in Hw.
    now rewrite !List.length_map in Hw.
  - eexists _, _. repeat split; reflexivity.
  - eexists _, _. repeat split; reflexivity.
Qed.

(* ===================================================================== *)
(** ** Further properties of the store *)
(* ===================================================================== *)

Lemma jsstring_eqb_eq s t : jsstring_eqb s t = true <-> s = t.
Proof. unfold jsstring_eqb. apply bool_decide_eq_true. Qed.

Lemma jsstring_eqb_neq s t : jsstring_eqb s t = false <-> s <> t.
Proof. unfold jsstring_eqb. apply bool_decide_eq_false. Qed.

Lemma firstWithId_id i l p : firstWithId i l = Some p -> id p = i /\ In p l.
Proof.
  intros H. apply find_some in H as [Hin Hid].
  split; [now apply jsstring_eqb_eq | exact Hin].
Qed.

Lemma firstWithId_app i l l' :
  firstWithId i (l ++ l') =
    match firstWithId i l with
    | Some p => Some p
    | None => firstWithId i l'
    end.
Proof.
  unfold firstWithId. induction l as [|q l IH]; [reflexivity|].
  simpl. destruct (jsstring_eqb (id q) i); [reflexivity | exact IH].
Qed.

Lemma firstWithId_filter i j l :
  firstWithId j (List.filter (fun q => negb (jsstring_eqb (id q) i)) l) =
    if jsstring_eqb i j then None else firstWithId j l.
Proof.
  unfold firstWithId. induction l as [|q l IH]; simpl.
  - now destruct (jsstring_eqb i j).
  - destruct (jsstring_eqb (id q) i) eqn:Hqi; simpl.
    + rewrite IH. destruct (jsstring_eqb i j) eqn:Hij; [reflexivity|].
      apply jsstring_eqb_eq in Hqi. apply jsstring_eqb_neq in Hij.
      replace (jsstring_eqb (id q) j) with false; [reflexivity|].
      symmetry. apply jsstring_eqb_neq. congruence.
    + destruct (jsstring_eqb (id q) j) eqn:Hqj; [|exact IH].
      destruct (jsstring_eqb i j) eqn:Hij; [|reflexivity].
      apply jsstring_eqb_eq in Hqj, Hij. apply jsstring_eqb_neq in Hqi.
      congruence.
Qed.

Lemma filter_none i l :
  firstWithId i l = None ->
  List.filter (fun q => negb (jsstring_eqb (id q) i)) l = l.
Proof.
  unfold firstWithId. induction l as [|q l IH]; simpl; [reflexivity|].
  destruct (jsstring_eqb (id q) i); simpl; [discriminate|].
  intros H. now rewrite IH.
Qed.

Lemma firstWithId_assign_first i j updated l p :
  firstWithId i l = Some p -> id updated = i ->
  firstWithId j
    (PasswordManager.assign_first (fun q => jsstring_eqb (id q) i) updated l)
  = if jsstring_eqb i j then Some updated else firstWithId j l.
Proof.
  unfold firstWithId. intros Hfind Hid.
  induction l as [|q l IH]; simpl in *; [discriminate|].
  destruct (jsstring_eqb (id q) i) eqn:Hqi; simpl.
  - rewrite Hid. destruct (jsstring_eqb i j) eqn:Hij; [reflexivity|].
    apply jsstring_eqb_eq in Hqi. rewrite Hqi, Hij. reflexivity.
  - destruct (jsstring_eqb (id q) j) eqn:Hqj.
    + destruct (jsstring_eqb i j) eqn:Hij; [|reflexivity].
      apply jsstring_eqb_eq in Hqj, Hij. apply jsstring_eqb_neq in Hqi.
      congruence.
    + now apply IH.
Qed.

Lemma assign_first_ids i updated l :
  id updated = i ->
  map id (PasswordManager.assign_first
            (fun q => jsstring_eqb (id q) i) updated l) = map id l.
Proof.
  intros Hid. induction l as [|q l IH]; simpl; [reflexivity|].
  destruct (jsstring_eqb (id q) i) eqn:Hqi; simpl.
  - apply jsstring_eqb_eq in Hqi. congruence.
  - now rewrite IH.
Qed.

Lemma with_passwords_same st : with_passwords st (passwords st) = st.
Proof. now destruct st. Qed.

(** What the three mutations of the store do on [LocalStorageService]. *)
Lemma addPassword_runs data st :
  let entry :=
    mkEntry (Number_toString (clock st (ticks st))) (NewData.website data)
            (NewData.username data) (NewData.password data)
            (NewData.notes data) (clock st (S (ticks st)))
            (clock st (S (S (ticks st)))) in
  PasswordManager.addPassword LocalStorageService.getInstance data st =
    (Return entry,
     flushed (with_passwords (later st 3) (passwords st ++ [entry]))
             (passwords st ++ [entry])).
Proof.
  intros entry.
  unfold PasswordManager.addPassword, PasswordManager.savePasswords, bind.
  rewrite constructor_fresh. cbn [get_passwords set_passwords passwords].
  cbn [StorageService.savePasswords LocalStorageService.getInstance].
  rewrite savePasswords_runs. unfold ret, later, with_passwords. simpl.
  now rewrite !Nat.add_succ_r, Nat.add_0_r.
Qed.

Lemma updatePassword_runs i data st :
  PasswordManager.updatePassword LocalStorageService.getInstance i data st =
    match firstWithId i (passwords st) with
    | None => (Return None, st)
    | Some p =>
        let p' :=
          mkEntry (id p)
            (match Partial.website data with Some v => v | None => website p end)
            (match Partial.username data with Some v => v | None => username p end)
            (match Partial.password data with Some v => v | None => password p end)
            (match Partial.notes data with Some v => Some v | None => notes p end)
            (createdAt p) (clock st (ticks st)) in
        let l' :=
          PasswordManager.assign_first (fun q => jsstring_eqb (id q) i) p'
                                       (passwords st) in
        (Return (Some p'), flushed (with_passwords (later st 1) l') l')
    end.
Proof.
  unfold PasswordManager.updatePassword, PasswordManager.savePasswords, bind,
    firstWithId.
  cbn [get_passwords].
  destruct (find (fun p => jsstring_eqb (id p) i) (passwords st)) as [p|];
    [|reflexivity].
  rewrite update_runs. cbn [get_passwords set_passwords passwords].
  cbn [StorageService.savePasswords LocalStorageService.getInstance].
  rewrite savePasswords_runs. unfold ret, later, with_passwords. simpl.
  now rewrite Nat.add_1_r.
Qed.

Lemma deletePassword_runs i st :
  PasswordManager.deletePassword LocalStorageService.getInstance i st =
    match firstWithId i (passwords st) with
    | None => (Return false, st)
    | Some _ =>
        let l' :=
          List.filter (fun q => negb (jsstring_eqb (id q) i)) (passwords st) in
        (Return true, flushed (with_passwords st l') l')
    end.
Proof.
  unfold PasswordManager.deletePassword, PasswordManager.savePasswords, bind.
  cbn [get_passwords set_passwords passwords].
  destruct (firstWithId i (passwords st)) as [p|] eqn:Hfind.
  - match goal with
    | |- context [?a <? ?b] =>
        replace (a <? b) with true
          by (symmetry; apply Z.ltb_lt, inj_lt,
                (find_filter_shorter _ _ _ Hfind))
    end.
    cbn [StorageService.savePasswords LocalStorageService.getInstance].
    rewrite savePasswords_runs. reflexivity.
  - rewrite (filter_none _ _ Hfind), Z.ltb_irrefl.
    unfold ret. f_equal. now destruct st.
Qed.

Lemma passwords_flushed st l : passwords (flushed st l) = passwords st.
Proof. unfold flushed. now destruct (writable (localStorage st)). Qed.

Lemma getPasswordById_runs i st :
  PasswordManager.getPasswordById i st
    = (Return (firstWithId i (passwords st)), st).
Proof. reflexivity. Qed.

(** X12.  On a medium that takes the write, after [addPassword], after an
    [updatePassword] that found the id and after a [deletePassword] that
    removed something, the durable copy is the serialisation of the whole
    collection in memory and nothing is reported; an update or a removal of
    an unknown id leaves the runtime untouched. *)
Theorem X12_write_through data i partial st :
  writable (localStorage st) = true ->
  (exists entry st',
     PasswordManager.addPassword LocalStorageService.getInstance data st
       = (Return entry, st')
     /\ secure_pass_passwords (localStorage st')
        = Some (JSONArray (map Password.toJSON (passwords st')))
     /\ console st' = console st)
  /\ (exists r st',
        PasswordManager.updatePassword LocalStorageService.getInstance
            i partial st = (Return r, st')
        /\ (r = None <-> firstWithId i (passwords st) = None)
        /\ (r = None -> st' = st)
        /\ (r <> None ->
            secure_pass_passwords (localStorage st')
            = Some (JSONArray (map Password.toJSON (passwords st'))))
        /\ console st' = console st)
  /\ (exists b st',
        PasswordManager.deletePassword LocalStorageService.getInstance i st
          = (Return b, st')
        /\ (b = false <-> firstWithId i (passwords st) = None)
        /\ (b = false -> st' = st)
        /\ (b = true ->
            secure_pass_passwords (localStorage st')
            = Some (JSONArray (map Password.toJSON (passwords st'))))
        /\ console st' = console st).
Proof.
  intros Hw. split; [|split].
  - eexists _, _. split; [apply addPassword_runs|].
    unfold flushed. cbn [with_passwords later localStorage]. rewrite Hw.
    split; reflexivity.
  - rewrite updatePassword_runs.
    destruct (firstWithId i (passwords st)) as [p|].
    + eexists _, _. split; [reflexivity|]. cbv zeta.
      unfold flushed. cbn [with_passwords later localStorage]. rewrite Hw.
      repeat split; try discriminate; reflexivity.
    + eexists _, _. split; [reflexivity|].
      repeat split; try reflexivity. intros H. now elim H.
  - rewrite deletePassword_runs.
    destruct (firstWithId i (passwords st)) as [p|].
    + eexists _, _. split; [reflexivity|]. cbv zeta.
      unfold flushed. cbn [with_passwords localStorage]. rewrite Hw.
      repeat split; try discriminate; reflexivity.
    + eexists _, _. split; [reflexivity|].
      repeat split; try reflexivity. discriminate.
Qed.

(** X12 at work: a record added to a collection of one. *)
Lemma X12_write_through_witness :
  writable (localStorage (running 4 emptyStorage Rejected [stored])) = true
  /\ exists entry st',
       PasswordManager.addPassword LocalStorageService.getInstance gitlab
           (running 4 emptyStorage Rejected [stored]) = (Return entry, st')
       /\ secure_pass_passwords (localStorage st')
          = Some (JSONArray (map Password.toJSON (passwords st'))).
Proof.
  assert (Hw : writable (localStorage (running 4 emptyStorage Rejected [stored]))
               = true) by reflexivity.
  split; [exact Hw|].
  destruct (X12_write_through gitlab (js "1000") Partial.empty _ Hw)
    as [(entry & st' & Hrun & Hdurable & _) _].
  exists entry, st'. split; assumption.
Defined.

(** X13.  For an id no record has, whatever the backend, [updatePassword]
    returns null, [deletePassword] returns false and [getPasswordById]
    returns null, and the runtime is exactly as before: no flush, no clock
    reading. *)
Theorem X13_unknown_id svc i partial st :
  firstWithId i (passwords st) = None ->
  PasswordManager.updatePassword svc i partial st = (Return None, st)
  /\ PasswordManager.deletePassword svc i st = (Return false, st)
  /\ PasswordManager.getPasswordById i st = (Return None, st).
Proof.
  intros Hnone. split; [|split].
  - unfold PasswordManager.updatePassword, bind. cbn [get_passwords].
    unfold firstWithId in Hnone. now rewrite Hnone.
  - unfold PasswordManager.deletePassword, bind.
    cbn [get_passwords set_passwords passwords].
    rewrite (filter_none _ _ Hnone), Z.ltb_irrefl.
    unfold ret. f_equal. now destruct st.
  - rewrite getPasswordById_runs. now rewrite Hnone.
Qed.

(** X13 at work: the id "42" is unknown; even a backend that throws is
    not called. *)
Lemma X13_unknown_id_witness :
  firstWithId (js "42")
    (passwords (running 4 emptyStorage Rejected [stored])) = None
  /\ PasswordManager.deletePassword throwingBackend (js "42")
       (running 4 emptyStorage Rejected [stored])
     = (Return false, running 4 emptyStorage Rejected [stored]).
Proof.
  assert (H : firstWithId (js "42")
                (passwords (running 4 emptyStorage Rejected [stored])) = None)
    by (vm_compute; reflexivity).
  split; [exact H|].
  exact (proj1 (proj2 (X13_unknown_id throwingBackend (js "42") Partial.empty
                         _ H))).
Defined.

(** X14.  When no record has the id the clock is about to deliver,
    [addPassword] appends the new record at the end of the collection,
    [getPasswordById] of its id returns it, and the lookup of every other
    id gives what it gave before. *)
Theorem X14_add_then_getPasswordById data st :
  firstWithId (Number_toString (clock st (ticks st))) (passwords st) = None ->
  exists entry st',
    PasswordManager.addPassword LocalStorageService.getInstance data st
      = (Return entry, st')
    /\ PasswordManager.getPasswordById (id entry) st'
       = (Return (Some entry), st')
    /\ PasswordManager.getAllPasswords st'
       = (Return (passwords st ++ [entry]), st')
    /\ forall j, j <> id entry ->
         firstWithId j (passwords st') = firstWithId j (passwords st).
Proof.
  intros Hfresh. eexists _, _. split; [apply addPassword_runs|].
  rewrite getPasswordById_runs. unfold PasswordManager.getAllPasswords,
    get_passwords.
  rewrite passwords_flushed. cbn [with_passwords passwords id].
  rewrite firstWithId_app, Hfresh.
  split; [|split; [reflexivity|]].
  - unfold firstWithId. simpl.
    now rewrite (proj2 (jsstring_eqb_eq _ _) eq_refl).
  - intros j Hj. rewrite firstWithId_app.
    destruct (firstWithId j (passwords st)); [reflexivity|].
    unfold firstWithId. simpl.
    replace (jsstring_eqb (Number_toString (clock st (ticks st))) j) with false;
      [reflexivity|].
    symmetry. apply jsstring_eqb_neq. congruence.
Qed.

(** X14 at work: the next reading, 3000, is not an id in use. *)
Lemma X14_add_then_getPasswordById_witness :
  firstWithId (Number_toString
                 (clock (running 4 emptyStorage Rejected [stored]) 4))
    (passwords (running 4 emptyStorage Rejected [stored])) = None
  /\ exists entry st',
       PasswordManager.addPassword LocalStorageService.getInstance gitlab
           (running 4 emptyStorage Rejected [stored]) = (Return entry, st')
       /\ PasswordManager.getPasswordById (id entry) st'
          = (Return (Some entry), st').
Proof.
  assert (H : firstWithId
                (Number_toString
                   (clock (running 4 emptyStorage Rejected [stored]) 4))
                (passwords (running 4 emptyStorage Rejected [stored])) = None)
    by (vm_compute; reflexivity).
  split; [exact H|].
  destruct (X14_add_then_getPasswordById gitlab
              (running 4 emptyStorage Rejected [stored]) H)
    as (entry & st' & Hrun & Hget & _).
  exists entry, st'. split; assumption.
Defined.

(** X15.  [deletePassword] returns true exactly when some record had the
    id; afterwards the collection holds exactly the records with another
    id, in their order, [getPasswordById] of the id returns null and the
    lookup of every other id gives what it gave before. *)
Theorem X15_delete_then_getPasswordById i st :
  exists b st',
    PasswordManager.deletePassword LocalStorageService.getInstance i st
      = (Return b, st')
    /\ b = match firstWithId i (passwords st) with
           | Some _ => true
           | None => false
           end
    /\ passwords st'
       = List.filter (fun q => negb (jsstring_eqb (id q) i)) (passwords st)
    /\ PasswordManager.getPasswordById i st' = (Return None, st')
    /\ (forall q, In q (passwords st') <-> In q (passwords st) /\ id q <> i)
    /\ forall j, j <> i ->
         firstWithId j (passwords st') = firstWithId j (passwords st).
Proof.
  rewrite deletePassword_runs.
  assert (Hin : forall q,
            In q (List.filter (fun q => negb (jsstring_eqb (id q) i))
                              (passwords st))
            <-> In q (passwords st) /\ id q <> i).
  { intros q. rewrite filter_In, negb_true_iff, jsstring_eqb_neq. tauto. }
  assert (Hother : forall j, j <> i ->
            firstWithId j (List.filter (fun q => negb (jsstring_eqb (id q) i))
                                       (passwords st))
            = firstWithId j (passwords st)).
  { intros j Hj. rewrite firstWithId_filter.
    replace (jsstring_eqb i j) with false; [reflexivity|].
    symmetry. apply jsstring_eqb_neq. congruence. }
  assert (Hgone : firstWithId i
            (List.filter (fun q => negb (jsstring_eqb (id q) i)) (passwords st))
            = None).
  { rewrite firstWithId_filter.
    now rewrite (proj2 (jsstring_eqb_eq i i) eq_refl). }
  destruct (firstWithId i (passwords st)) as [p|] eqn:Hfind.
  - eexists _, _. split; [reflexivity|]. cbv zeta.
    rewrite getPasswordById_runs, passwords_flushed.
    cbn [with_passwords passwords]. rewrite Hgone.
    repeat split; try reflexivity; try apply Hin; auto.
  - eexists _, _. split; [reflexivity|].
    rewrite getPasswordById_runs, Hfind.
    split; [reflexivity|]. split; [symmetry; now apply filter_none|].
    split; [reflexivity|]. split; [|reflexivity].
    intros q. rewrite <- (filter_none _ _ Hfind) at 1. apply Hin.
Qed.

(** X16.  [updatePassword] of a stored id returns the first record with
    that id as [update] leaves it; afterwards [getPasswordById] of the id
    returns that record, the ids of the collection and their order are
    unchanged, and the lookup of every other id gives what it gave
    before. *)
Theorem X16_update_then_getPasswordById i partial st p :
  firstWithId i (passwords st) = Some p ->
  exists p' st',
    PasswordManager.updatePassword LocalStorageService.getInstance i partial st
      = (Return (Some p'), st')
    /\ Password.update p partial st = (Return p', later st 1)
    /\ id p' = i
    /\ PasswordManager.getPasswordById i st' = (Return (Some p'), st')
    /\ map id (passwords st') = map id (passwords st)
    /\ forall j, j <> i ->
         firstWithId j (passwords st') = firstWithId j (passwords st).
Proof.
  intros Hfind. destruct (firstWithId_id _ _ _ Hfind) as [Hid _].
  rewrite updatePassword_runs, Hfind. cbv zeta.
  eexists _, _. split; [reflexivity|].
  rewrite getPasswordById_runs, passwords_flushed.
  cbn [with_passwords passwords].
  split; [rewrite update_runs; unfold later; now rewrite Nat.add_1_r|].
  split; [exact Hid|].
  match goal with
  | |- context [PasswordManager.assign_first _ ?u _] =>
      assert (Hid' : id u = i) by exact Hid
  end.
  split.
  - rewrite (firstWithId_assign_first i i _ _ p Hfind Hid').
    now rewrite (proj2 (jsstring_eqb_eq i i) eq_refl).
  - split; [now apply assign_first_ids|].
    intros j Hj. rewrite (firstWithId_assign_first i j _ _ p Hfind Hid').
    replace (jsstring_eqb i j) with false; [reflexivity|].
    symmetry. apply jsstring_eqb_neq. congruence.
Qed.

(** X16 at work: the password of record "1000" is changed. *)
Lemma X16_update_then_getPasswordById_witness :
  firstWithId (js "1000")
    (passwords (running 4 emptyStorage Rejected [stored])) = Some stored
  /\ exists p' st',
       PasswordManager.updatePassword LocalStorageService.getInstance
           (js "1000") (Partial.make None None (Some (js "s3cret")) None)
           (running 4 emptyStorage Rejected [stored])
         = (Return (Some p'), st')
       /\ PasswordManager.getPasswordById (js "1000") st'
          = (Return (Some p'), st').
Proof.
  assert (H : firstWithId (js "1000")
                (passwords (running 4 emptyStorage Rejected [stored]))
              = Some stored) by (vm_compute; reflexivity).
  split; [exact H|].
  destruct (X16_update_then_getPasswordById (js "1000")
              (Partial.make None None (Some (js "s3cret")) None)
              (running 4 emptyStorage Rejected [stored]) stored H)
    as (p' & st' & Hrun & _ & _ & Hget & _).
  exists p', st'. split; assumption.
Defined.

(** X17.  On a medium that takes the write, a store constructed after an
    [addPassword] loads the collection the first store had, record by
    record, with the same id, website, username, password, notes and
    [updatedAt]; the durable copy is not changed by loading. *)
Theorem X17_restart_after_add data st :
  writable (localStorage st) = true ->
  Forall (fun e => truthy (id e) = true) (passwords st) ->
  exists entry st1 st2,
    PasswordManager.addPassword LocalStorageService.getInstance data st
      = (Return entry, st1)
    /\ PasswordManager.constructor LocalStorageService.getInstance st1
       = (Return tt, st2)
    /\ map content (passwords st2) = map content (passwords st1)
    /\ passwords st1 = passwords st ++ [entry]
    /\ localStorage st2 = localStorage st1
    /\ console st2 = console st.
Proof.
  intros Hw Hids. pose proof (addPassword_runs data st) as Hadd.
  cbv zeta in Hadd.
  match type of Hadd with
  | context [flushed _ ?l] => set (l1 := l) in *
  end.
  assert (Hids1 : Forall (fun e => truthy (id e) = true) l1).
  { apply Forall_app. split; [exact Hids|]. repeat constructor.
    apply Number_toString_truthy. }
  unfold flushed in Hadd. cbn [with_passwords later localStorage] in Hadd.
  rewrite Hw, map_toJSON in Hadd.
  match type of Hadd with
  | _ = (_, ?s) => set (st1 := s) in *
  end.
  destruct (mapM_fromJSON_runs l1 st1)
    as (l & n & Hrun & _ & Hw' & Hu & Hp & Hno & Hup & _ & Hid).
  destruct (Hid Hids1) as [Hid' _].
  eexists _, st1, (with_passwords (later st1 n) l).
  split; [exact Hadd|].
  unfold PasswordManager.constructor, PasswordManager.loadPasswords, bind.
  cbn [StorageService.getPasswords LocalStorageService.getInstance].
  unfold LocalStorageService.getPasswords, try_catch, bind,
    localStorage_getItem, JSON_parse, ret.
  replace (secure_pass_passwords (localStorage st1))
    with (Some (JSONArray l1)) by reflexivity.
  rewrite Hrun. split; [reflexivity|].
  split; [now apply map_content|]. repeat split; reflexivity.
Qed.

(** X17 at work: a record added, then the store constructed anew. *)
Lemma X17_restart_after_add_witness :
  writable (localStorage (running 4 emptyStorage Rejected [stored])) = true
  /\ Forall (fun e => truthy (id e) = true)
            (passwords (running 4 emptyStorage Rejected [stored]))
  /\ exists entry st1 st2,
       PasswordManager.addPassword LocalStorageService.getInstance gitlab
           (running 4 emptyStorage Rejected [stored]) = (Return entry, st1)
       /\ PasswordManager.constructor LocalStorageService.getInstance st1
          = (Return tt, st2)
       /\ map content (passwords st2) = map content (passwords st1).
Proof.
  assert (Hw : writable (localStorage (running 4 emptyStorage Rejected [stored]))
               = true) by reflexivity.
  assert (Hids : Forall (fun e => truthy (id e) = true)
                        (passwords (running 4 emptyStorage Rejected [stored])))
    by (repeat constructor).
  split; [exact Hw|]. split; [exact Hids|].
  destruct (X17_restart_after_add gitlab _ Hw Hids)
    as (entry & st1 & st2 & Hadd & Hload & Hc & _).
  exists entry, st1, st2. repeat split; assumption.
Defined.

(** X18.  [clearAllPasswords] empties the collection in memory and erases
    the durable copy without reporting anything; afterwards every search
    and every lookup is empty, and a store constructed from the medium
    starts empty. *)
Theorem X18_clearAllPasswords (toLowerCase : jsstring -> jsstring) term st :
  exists st1,
    PasswordManager.clearAllPasswords LocalStorageService.getInstance st
      = (Return tt, st1)
    /\ passwords st1 = []
    /\ secure_pass_passwords (localStorage st1) = None
    /\ console st1 = console st
    /\ PasswordManager.constructor LocalStorageService.getInstance st1
       = (Return tt, st1)
    /\ PasswordManager.searchPasswords toLowerCase term st1 = (Return [], st1)
    /\ forall i, PasswordManager.getPasswordById i st1 = (Return None, st1).
Proof.
  eexists. split; [reflexivity|]. cbn [passwords localStorage console
    secure_pass_passwords].
  repeat split; try reflexivity.
  unfold PasswordManager.searchPasswords.
  destruct (negb (truthy (trim term))); reflexivity.
Qed.

(* ===================================================================== *)
(** ** Further properties of the network-backed service and of the hook *)
(* ===================================================================== *)

(** X19.  The network-backed [getAllPasswords] and [searchPasswords] fetch
    the list first: both throw when the fetch is rejected or the status is
    not between 200 and 299, even for a blank term; on success the search
    returns records of the fetched list, all of them for a blank term, and
    both take the same readings of the clock. *)
Theorem X19_api_search_transport (toLowerCase : jsstring -> jsstring) term st :
  match server st with
  | Rejected =>
      PasswordAPIService.getAllPasswords st = (Throw NetworkError, st)
      /\ PasswordAPIService.searchPasswords toLowerCase term st
         = (Throw NetworkError, st)
  | Responded status body =>
      if (200 <=? status) && (status <=? 299)
      then exists all found n,
             PasswordAPIService.getAllPasswords st = (Return all, later st n)
             /\ PasswordAPIService.searchPasswords toLowerCase term st
                = (Return found, later st n)
             /\ map website all = map website body
             /\ map username all = map username body
             /\ map updatedAt all = map updatedAt body
             /\ (forall r, In r found -> In r all)
             /\ (whitespace_only term = true -> found = all)
      else PasswordAPIService.getAllPasswords st
             = (Throw (APIRequestFailed status), st)
           /\ PasswordAPIService.searchPasswords toLowerCase term st
              = (Throw (APIRequestFailed status), st)
  end.
Proof.
  unfold PasswordAPIService.searchPasswords,
    PasswordAPIService.getAllPasswords, PasswordAPIService.makeRequest, bind.
  destruct (server st) as [|status body]; [split; reflexivity|].
  destruct ((200 <=? status) && (status <=? 299)); [|split; reflexivity].
  destruct (mapM_fromJSON_runs body st)
    as (all & n & Hrun & _ & Hw & Hu & _ & _ & Hup & _ & _).
  rewrite Hrun, trim_falsy.
  destruct (whitespace_only term).
  - exists all, all, n. repeat split; auto.
  - eexists all, _, n. split; [reflexivity|]. split; [reflexivity|].
    repeat split; auto; try discriminate.
    intros r Hr. now apply filter_In in Hr.
Qed.

Import PasswordManagerHook.

(** X20.  The React state of [PasswordManagerHook] stays the collection of
    the store: if it was before [addPassword], [updatePassword] or
    [deletePassword] of the hook, it is afterwards, whether the operation
    found the id or not. *)
Theorem X20_hook_state_in_sync data i partial st react :
  react = passwords st ->
  (exists entry react' st',
     PasswordManagerHook.addPassword LocalStorageService.getInstance data
         react st = (Return (entry, react'), st')
     /\ react' = passwords st'
     /\ react' = passwords st ++ [entry])
  /\ (exists r react' st',
        PasswordManagerHook.updatePassword LocalStorageService.getInstance
            i partial react st = (Return (r, react'), st')
        /\ react' = passwords st'
        /\ map id react' = map id react)
  /\ (exists b react' st',
        PasswordManagerHook.deletePassword LocalStorageService.getInstance
            i react st = (Return (b, react'), st')
        /\ react' = passwords st'
        /\ forall q, In q react' <-> In q react /\ id q <> i).
Proof.
  intros ->. split; [|split].
  - unfold PasswordManagerHook.addPassword, bind. rewrite addPassword_runs.
    cbv zeta. eexists _, _, _. split; [reflexivity|].
    cbn [snd]. rewrite passwords_flushed. split; reflexivity.
  - unfold PasswordManagerHook.updatePassword, bind.
    rewrite updatePassword_runs.
    destruct (firstWithId i (passwords st)) as [p|] eqn:Hfind.
    + cbv zeta. eexists _, _, _. split; [reflexivity|].
      cbn [snd]. rewrite passwords_flushed. split; [reflexivity|].
      cbn [with_passwords passwords]. apply assign_first_ids.
      now destruct (firstWithId_id _ _ _ Hfind).
    + eexists _, _, _. split; [reflexivity|]. split; reflexivity.
  - unfold PasswordManagerHook.deletePassword, bind.
    rewrite deletePassword_runs.
    destruct (firstWithId i (passwords st)) as [p|] eqn:Hfind.
    + cbv zeta. eexists _, _, _. split; [reflexivity|].
      cbn [snd]. rewrite passwords_flushed. split; [reflexivity|].
      cbn [with_passwords passwords]. intros q.
      rewrite filter_In, negb_true_iff, jsstring_eqb_neq. tauto.
    + eexists _, _, _. split; [reflexivity|]. split; [reflexivity|].
      intros q. rewrite <- (filter_none _ _ Hfind) at 1.
      rewrite filter_In, negb_true_iff, jsstring_eqb_neq. tauto.
Qed.

(** X20 at work: the hook adds a record. *)
Lemma X20_hook_state_in_sync_witness :
  [stored] = passwords (running 4 emptyStorage Rejected [stored])
  /\ exists entry react' st',
       PasswordManagerHook.addPassword LocalStorageService.getInstance gitlab
           [stored] (running 4 emptyStorage Rejected [stored])
         = (Return (entry, react'), st')
       /\ react' = passwords st'.
Proof.
  assert (H : [stored] = passwords (running 4 emptyStorage Rejected [stored]))
    by reflexivity.
  split; [exact H|].
  destruct (X20_hook_state_in_sync gitlab (js "1000") Partial.empty
              (running 4 emptyStorage Rejected [stored]) [stored] H)
    as [(entry & react' & st' & Hrun & Hsync & _) _].
  exists entry, react', st'. split; assumption.
Defined.

Lemma firstWithId_None i l : firstWithId i l = None <-> ~ In i (map id l).
Proof.
  unfold firstWithId. induction l as [|q l IH]; simpl; [tauto|].
  destruct (jsstring_eqb (id q) i) eqn:Hq.
  - apply jsstring_eqb_eq in Hq. split; [discriminate | tauto].
  - apply jsstring_eqb_neq in Hq. rewrite IH. tauto.
Qed.

Lemma NoDup_ids_filter (g : PasswordEntry -> bool) l :
  List.NoDup (map id l) -> List.NoDup (map id (List.filter g l)).
Proof.
  induction l as [|q l IH]; simpl; [auto|].
  intros Hnd. inversion Hnd as [|? ? Hnotin Hrest]; subst.
  destruct (g q); simpl; [|auto].
  constructor; [|auto]. intros Hin. apply Hnotin.
  apply in_map_iff in Hin as (r & Hr & Hin). apply filter_In in Hin as [Hin _].
  apply in_map_iff. eauto.
Qed.

(** X21.  Distinct ids stay distinct: in a collection whose ids are
    pairwise different, they still are after [updatePassword] and after
    [deletePassword]; after [addPassword] they are exactly when no record
    had the id made from the clock reading. *)
Theorem X21_distinct_ids_kept data i partial st :
  NoDup (map id (passwords st)) ->
  (exists r st',
     PasswordManager.updatePassword LocalStorageService.getInstance
         i partial st = (Return r, st')
     /\ NoDup (map id (passwords st')))
  /\ (exists b st',
        PasswordManager.deletePassword LocalStorageService.getInstance i st
          = (Return b, st')
        /\ NoDup (map id (passwords st')))
  /\ (exists entry st',
        PasswordManager.addPassword LocalStorageService.getInstance data st
          = (Return entry, st')
        /\ (NoDup (map id (passwords st'))
            <-> firstWithId (Number_toString (clock st (ticks st)))
                            (passwords st) = None)).
Proof.
  rewrite NoDup_ListNoDup. intros Hnd. split; [|split].
  - rewrite updatePassword_runs.
    destruct (firstWithId i (passwords st)) as [p|] eqn:Hfind.
    + cbv zeta. eexists _, _. split; [reflexivity|].
      rewrite passwords_flushed. cbn [with_passwords passwords].
      rewrite NoDup_ListNoDup, assign_first_ids; [exact Hnd|].
      now destruct (firstWithId_id _ _ _ Hfind).
    + eexists _, _. split; [reflexivity | now apply NoDup_ListNoDup].
  - rewrite deletePassword_runs.
    destruct (firstWithId i (passwords st)) as [p|] eqn:Hfind.
    + cbv zeta. eexists _, _. split; [reflexivity|].
      rewrite passwords_flushed. cbn [with_passwords passwords].
      now apply NoDup_ListNoDup, NoDup_ids_filter.
    + eexists _, _. split; [reflexivity | now apply NoDup_ListNoDup].
  - eexists _, _. split; [apply addPassword_runs|].
    rewrite passwords_flushed. cbn [with_passwords passwords].
    rewrite NoDup_ListNoDup, map_app, firstWithId_None. simpl map.
    split.
    + intros H Hin. apply List.NoDup_remove_2 in H. rewrite app_nil_r in H.
      auto.
    + intros Hnotin. apply List.NoDup_app; [exact Hnd| |].
      * repeat constructor. simpl. tauto.
      * intros x Hx [<-|[]]. auto.
Qed.

(** X21 at work: the id "3000" is new beside "1000". *)
Lemma X21_distinct_ids_kept_witness :
  NoDup (map id (passwords (running 4 emptyStorage Rejected [stored])))
  /\ exists entry st',
       PasswordManager.addPassword LocalStorageService.getInstance gitlab
           (running 4 emptyStorage Rejected [stored]) = (Return entry, st')
       /\ NoDup (map id (passwords st')).
Proof.
  assert (H : NoDup (map id (passwords
                               (running 4 emptyStorage Rejected [stored]))))
    by (apply NoDup_ListNoDup; repeat constructor; simpl; tauto).
  split; [exact H|].
  destruct (X21_distinct_ids_kept gitlab (js "1000") Partial.empty _ H)
    as (_ & _ & entry & st' & Hrun & Hiff).
  exists entry, st'. split; [exact Hrun|].
  apply Hiff. vm_compute. reflexivity.
Defined.
